(** * Where2comm: the inference and evaluation driver

    A shallow embedding of [opencood/tools/inference.py]: the corner
    reordering of [result2dict] and the evaluation loop of [main], with
    the statistics accumulator, the communication-rate average and the
    report line written to [result.txt].

    Python floats are IEEE binary64 numbers and are modelled by Rocq's
    primitive floats.  Python ints are [Z].  A dict is a [gmap]; the
    float keys [0.3], [0.5], [0.7] of [result_stat] are the rationals
    their literals denote.  The collaborators that the driver only calls
    (dataset, model, fusion pipelines, per-frame classification, AP
    reduction, tensor arithmetic) are the fields of the class
    [External]. *)

From Stdlib Require Import Floats QArith Qcanon ZArith String Ascii DecimalString DecimalZ.
From stdpp Require Import gmap strings list.

Close Scope Q_scope.
Close Scope Qc_scope.
Local Open Scope string_scope.
Local Open Scope Z_scope.
Local Open Scope list_scope.

(** ** Python strings *)

(** [needle in s] on [str]. *)
Fixpoint str_contains (needle s : string) : bool :=
  String.prefix needle s ||
  match s with
  | EmptyString => false
  | String _ s' => str_contains needle s'
  end.

(** [x in names] for a list of strings. *)
Definition str_in (x : string) (names : list string) : bool :=
  bool_decide (x ∈ names).

(** [str(z)] for an int. *)
Definition str_of_int (z : Z) : string :=
  NilZero.string_of_int (Z.to_int z).

Definition zeros (n : nat) : string := string_of_list_ascii (replicate n "0"%char).

(** ['%0<w>d' % z]: the sign, then zeros up to the width [w], then the
    digits. *)
Definition fmt_zero_pad (w : nat) (z : Z) : string :=
  let digits := str_of_int (Z.abs z) in
  let sign := if (z <? 0)%Z then "-" else "" in
  sign +:+ zeros (w - String.length sign - String.length digits) +:+ digits.

(** [os.path.join(a, b)] on POSIX. *)
Definition str_last (s : string) : option ascii :=
  last (list_ascii_of_string s).

Definition path_join (a b : string) : string :=
  if String.prefix "/" b then b
  else if bool_decide (a = "") || bool_decide (str_last a = Some "/"%char)
       then a +:+ b
       else a +:+ "/" +:+ b.

(** *** Fixed-point formatting of floats: ['{:.0<p>f}'.format(x)]

    Python prints the correctly rounded decimal expansion of the exact
    binary value with [p] digits after the point (ties to even). *)

Definition round_half_even (n d : Z) : Z :=
  let q := n / d in
  let r := n mod d in
  if 2 * r <? d then q
  else if d <? 2 * r then q + 1
  else if Z.even q then q else q + 1.

(** The integer nearest to [m * 2^e * 10^p]. *)
Definition scaled_round (p : nat) (m : positive) (e : Z) : Z :=
  let num := Z.pos m * 10 ^ Z.of_nat p in
  if 0 <=? e then num * 2 ^ e else round_half_even num (2 ^ (- e)).

(** The digits of [n >= 0] with a point before the last [p] of them. *)
Definition point_digits (p : nat) (n : Z) : string :=
  let s := str_of_int n in
  let s := zeros (S p - String.length s) +:+ s in
  let k := (String.length s - p)%nat in
  if bool_decide (p = 0%nat) then s
  else String.substring 0 k s +:+ "." +:+ String.substring k p s.

Definition format_fixed (p : nat) (x : float) : string :=
  match Prim2SF x with
  | S754_nan => "nan"
  | S754_infinity s => if s then "-inf" else "inf"
  | S754_zero s => (if s then "-" else "") +:+ point_digits p 0
  | S754_finite s m e =>
      (if s then "-" else "") +:+ point_digits p (scaled_round p m e)
  end.

(** The floats that print as digits: not [nan], not [inf]. *)
Definition finite_float (x : float) : bool :=
  match Prim2SF x with
  | S754_zero _ | S754_finite _ _ _ => true
  | _ => false
  end.

(** A Python number as the report formats it: the float of [.item()],
    [opt.comm_thre] and the APs, or the int [0] of an empty sample list. *)
Inductive pynum :=
| PyInt (z : Z)
| PyFloat (x : float).

(** ['{:.0<p>f}'.format(v)]; an int is converted to float first, which
    is exact below [2^53]. *)
Definition format_f (p : nat) (v : pynum) : string :=
  match v with
  | PyFloat x => format_fixed p x
  | PyInt z => (if (z <? 0)%Z then "-" else "") +:+ point_digits p (Z.abs z * 10 ^ Z.of_nat p)
  end.

(** The numbers that print as digits: every int, and the floats that
    are neither [nan] nor infinite. *)
Definition finite_num (v : pynum) : bool :=
  match v with
  | PyInt _ => true
  | PyFloat x => finite_float x
  end.

(** ** numpy arrays *)

(** A corner is the row of its coordinates, a box the rows of its
    corners.  A 3-d array keeps its shape beside its rows, as an empty
    array still has one. *)
Definition corner := list float.
Definition box := list corner.

Record ndarray3 := mk_ndarray3 {
  shape : nat * nat * nat;
  rows : list box
}.

(** 1-d arrays, by dtype. *)
Inductive ndarray1 :=
| IntArray (l : list Z)
| FloatArray (l : list float).

(** [np.ones((0, 8, 3))] and [np.zeros((0))]. *)
Definition np_ones_0_8_3 : ndarray3 := mk_ndarray3 (0%nat, 8%nat, 3%nat) [].
Definition np_zeros_0 : ndarray1 := FloatArray [].

(** [a[idx]] with a list of indices on the first axis; [None] is
    numpy's IndexError. *)
Definition fancy_index {A} (a : list A) (idx : list nat) : option (list A) :=
  mapM (λ p, a !! p) idx.

(** ** result2dict *)

Definition perm_pred : list nat := [0; 4; 7; 3; 1; 5; 6; 2]%nat.
Definition perm_label : list nat := [3; 2; 1; 0; 7; 6; 5; 4]%nat.

Record output_dict := mk_output_dict {
  boxes_3d : ndarray3;
  scores_3d : ndarray1;
  labels_3d : ndarray1
}.

(** One iteration of the loop over [range(box3d.shape[0])]: the box
    appended to [boxes_3d] and the score appended to [scores_3d].
    [None] is an IndexError, of the reordering or of [score[i]]. *)
Definition result2dict_item (score : option (list float)) (i : nat) (b3d : box)
  : option (box * float) :=
  b3d ← match score with
        | Some _ => fancy_index b3d perm_label ≫= λ b, fancy_index b perm_pred
        | None => Some b3d
        end;
  sc ← match score with
       | Some s => s !! i
       | None => Some 1%float
       end;
  Some (b3d, sc).

Fixpoint result2dict_loop (score : option (list float)) (i : nat) (bs : list box)
  : option (list (box * float)) :=
  match bs with
  | [] => Some []
  | b :: bs' =>
      x ← result2dict_item score i b;
      xs ← result2dict_loop score (S i) bs';
      Some (x :: xs)
  end.

(** The second axis after the loop: 8 when the boxes were reordered. *)
Definition out_corners (score : option (list float)) (c : nat) : nat :=
  match score with Some _ => length perm_pred | None => c end.

Definition result2dict (box3d_tensor : ndarray3) (score_tensor : option (list float))
  : option output_dict :=
  let '(n, c, k) := shape box3d_tensor in
  items ← result2dict_loop score_tensor 0 (rows box3d_tensor);
  if bool_decide (0 < length items)%nat then
    Some {| boxes_3d := mk_ndarray3 (length items, out_corners score_tensor c, k) (items.*1);
            scores_3d := FloatArray (items.*2);
            labels_3d := IntArray (replicate (length items) 2) |}
  else
    Some {| boxes_3d := np_ones_0_8_3;
            scores_3d := np_zeros_0;
            labels_3d := np_zeros_0 |}.

(** A 3-d array whose rows agree with its shape. *)
Definition wf_ndarray3 (a : ndarray3) : Prop :=
  let '(n, c, k) := shape a in
  length (rows a) = n ∧
  Forall (λ b : box, length b = c ∧ Forall (λ p : corner, length p = k) b) (rows a).

(** ** The evaluation driver: options, configuration, collaborators *)

(** The namespace [test_parser] returns. *)
Record Opt := mk_opt {
  model_dir : string;
  fusion_method : string;
  save_vis_n : Z;
  save_npy : bool;
  eval_epoch : option string;
  comm_thre : option float
}.

(** The configuration dictionary [yaml_utils.load_yaml(None, opt)], as
    far as [main] reads or writes it.  [communication_thre] is the entry
    [hypes['model']['args']['fusion_args']['communication']['thre']]
    (the dictionaries on the way to it are taken to exist), [gt_range]
    is [hypes['postprocess']['gt_range']]. *)
Record Hypes := mk_hypes {
  test_dir : string;
  validate_dir : string;
  communication_thre : option float;
  gt_range : list float
}.

(** One entry of [result_stat]: [{'tp': [], 'fp': [], 'gt': 0}]. *)
Record threshold_stat (Mark : Type) := mk_threshold_stat {
  tp : list Mark;
  fp : list Mark;
  gt : Z
}.
Arguments mk_threshold_stat {Mark} _ _ _.
Arguments tp {Mark} _.
Arguments fp {Mark} _.
Arguments gt {Mark} _.

(** What [main] calls and does not define.  [load_saved_model] gives
    [str(epoch_id)] and the restored model, as the loop uses it (on the
    device, in eval mode); [to_device] is [train_utils.to_device] with
    the chosen device; [sample_idx] is [int(batch["ego"]["sample_idx"])];
    [origin_lidar] is [batch['ego']['origin_lidar'][0]].  A fusion
    pipeline returns [(pred_box_tensor, pred_score, gt_box_tensor)],
    each possibly [None], and the compression-aware one a rate as well.
    [frame_tp_fp] is the per-frame classification inside
    [eval_utils.caluclate_tp_fp]: the marks it appends to ['tp'] and to
    ['fp'] and the number it adds to ['gt'].  The last four fields are
    the tensor arithmetic behind [sum(...) / len(...)] and [.item()]:
    [int + tensor], [tensor + tensor], [tensor / int]. *)
Class External := {
  Tensor : Type;
  Batch : Type;
  Dataset : Type;
  Model : Type;
  Mark : Type;
  build_dataset : Hypes → Dataset;
  create_model : Hypes → Model;
  load_saved_model : string → Model → option string → string * Model;
  to_device : Batch → Batch;
  sample_idx : Batch → Z;
  origin_lidar : Batch → Tensor;
  inference_late_fusion :
    Batch → Model → Dataset → option Tensor * option Tensor * option Tensor;
  inference_early_fusion :
    Batch → Model → Dataset → option Tensor * option Tensor * option Tensor;
  inference_intermediate_fusion :
    Batch → Model → Dataset → option Tensor * option Tensor * option Tensor;
  inference_no_fusion :
    Batch → Model → Dataset → option Tensor * option Tensor * option Tensor;
  inference_intermediate_fusion_withcomm :
    Batch → Model → Dataset →
    option Tensor * option Tensor * option Tensor * Tensor;
  frame_tp_fp :
    Tensor → option Tensor → option Tensor → Qc → list Mark * list Mark * Z;
  eval_final_results : gmap Qc (threshold_stat Mark) → string → float * float * float;
  tensor_radd : Z → Tensor → Tensor;
  tensor_add : Tensor → Tensor → Tensor;
  tensor_div : Tensor → Z → Tensor;
  tensor_item : Tensor → float
}.

(** The float keys of [result_stat]. *)
Definition thr_03 : Qc := Q2Qc (3 # 10).
Definition thr_05 : Qc := Q2Qc (5 # 10).
Definition thr_07 : Qc := Q2Qc (7 # 10).

Definition supported_methods : list string :=
  ["late"; "early"; "intermediate"; "intermediate_with_comm"; "no"].

Definition newline : string := String (ascii_of_nat 10) EmptyString.

(** [str(b)] for a bool, as an f-string prints it. *)
Definition str_of_bool (b : bool) : string := if b then "True" else "False".

Inductive exn :=
| AssertionError
| NotImplementedError
| KeyError
| AttributeError.

Section Driver.
Context `{E : External}.

(** What the run does to the outside, in order.  [EvEnsureDir p] is
    [if not os.path.exists(p): os.makedirs(p)]; [EvAppend p s] is a
    write of [s] to [p] opened with ['a+']. *)
Inductive event :=
| EvPrint (s : string)
| EvInference (i : nat) (method : string)
| EvEnsureDir (path : string)
| EvSavePredictionGt (pred : Tensor) (score gt : option Tensor) (lidar : Tensor)
    (frame_id : Z) (path : string)
| EvVisualize (pred : Tensor) (gt : option Tensor) (lidar : Tensor)
    (range : list float) (path : string) (method : string) (left_hand : bool)
| EvEvalFinalResults (dir : string)
| EvAppend (path : string) (text : string).

(** The mutable locals of [main] the loop writes, and the trace. *)
Record state := mk_state {
  result_stat : gmap Qc (threshold_stat Mark);
  total_comm_rates : list Tensor;
  trace : list event
}.

Definition set_result_stat (rs : gmap Qc (threshold_stat Mark)) (st : state) : state :=
  mk_state rs (total_comm_rates st) (trace st).
Definition append_comm_rate (c : Tensor) (st : state) : state :=
  mk_state (result_stat st) (total_comm_rates st ++ [c]) (trace st).
Definition log (evs : list event) (st : state) : state :=
  mk_state (result_stat st) (total_comm_rates st) (trace st ++ evs).

(** A step either goes on with a state or raises, leaving the state it
    had reached. *)
Inductive result :=
| Ok (st : state)
| Raise (e : exn) (st : state).

Definition rbind (r : result) (k : state → result) : result :=
  match r with
  | Ok st => k st
  | Raise e st => Raise e st
  end.

(** The [if]/[elif] chain on [opt.fusion_method]; [None] is its [else]
    branch. *)
Definition dispatch (method : string) (batch_data : Batch) (model : Model)
    (dataset : Dataset)
  : option (option Tensor * option Tensor * option Tensor * option Tensor) :=
  if String.eqb method "late" then
    Some (inference_late_fusion batch_data model dataset, None)
  else if String.eqb method "early" then
    Some (inference_early_fusion batch_data model dataset, None)
  else if String.eqb method "intermediate" then
    Some (inference_intermediate_fusion batch_data model dataset, None)
  else if String.eqb method "no" then
    Some (inference_no_fusion batch_data model dataset, None)
  else if String.eqb method "intermediate_with_comm" then
    let '(p, s, g, comm_rates) :=
      inference_intermediate_fusion_withcomm batch_data model dataset in
    Some (p, s, g, Some comm_rates)
  else None.

(** The accumulator's [+=] on one entry: the marks are appended, the
    ground-truth count is added. *)
Definition stat_record (frame : list Mark * list Mark * Z)
    (s : threshold_stat Mark) : threshold_stat Mark :=
  let '(tps, fps, n) := frame in
  mk_threshold_stat (tp s ++ tps) (fp s ++ fps) (gt s + n).

(** Modelled from the spec: [eval_utils.caluclate_tp_fp] is not among
    the sources.  It classifies the frame's detections at [iou_thresh]
    ([frame_tp_fp]) and records the outcome in the entry of that
    threshold only.  A threshold that is not a key is a KeyError. *)
Definition caluclate_tp_fp (det_boxes : Tensor) (det_score gt_boxes : option Tensor)
    (iou_thresh : Qc) (st : state) : result :=
  match result_stat st !! iou_thresh with
  | None => Raise KeyError st
  | Some s =>
      Ok (set_result_stat
            (<[iou_thresh := stat_record (frame_tp_fp det_boxes det_score gt_boxes iou_thresh) s]>
               (result_stat st)) st)
  end.

(** The constants of a run that the loop body reads. *)
Record env := mk_env {
  env_opt : Opt;
  env_hypes : Hypes;
  test_inference : bool;
  left_hand : bool;
  env_dataset : Dataset;
  env_model : Model
}.

Definition vis_events (en : env) (frame_id : Z) (pred : Tensor) (gt_box : option Tensor)
    (lidar : Tensor) : list event :=
  let dir := model_dir (env_opt en) in
  [ EvEnsureDir (path_join dir "vis_3d");
    EvVisualize pred gt_box lidar (gt_range (env_hypes en))
      (path_join dir ("vis_3d/3d_" +:+ fmt_zero_pad 5 frame_id +:+ ".png"))
      "3d" (left_hand en);
    EvEnsureDir (path_join dir "vis_bev");
    EvVisualize pred gt_box lidar (gt_range (env_hypes en))
      (path_join dir ("vis_bev/bev_" +:+ fmt_zero_pad 5 frame_id +:+ ".png"))
      "bev" (left_hand en) ].

Definition save_events (en : env) (frame_id : Z) (pred : Tensor)
    (score gt_box : option Tensor) (lidar : Tensor) : list event :=
  let npy_save_path := path_join (model_dir (env_opt en)) "npy" in
  [ EvEnsureDir npy_save_path;
    EvSavePredictionGt pred score gt_box lidar frame_id npy_save_path ].

(** The body of [for i, batch_data in enumerate(data_loader)]. *)
Definition frame_body (en : env) (i : nat) (batch : Batch) (st : state) : result :=
  let opt := env_opt en in
  let batch_data := to_device batch in
  let frame_id := sample_idx batch_data in
  match dispatch (fusion_method opt) batch_data (env_model en) (env_dataset en) with
  | None => Raise NotImplementedError st
  | Some (pred_box_tensor, pred_score, gt_box_tensor, comm) =>
      let st := log [EvInference i (fusion_method opt)] st in
      let st := match comm with
                | Some comm_rates => append_comm_rate comm_rates st
                | None => st
                end in
      match pred_box_tensor with
      | None => Ok st
      | Some pred =>
          rbind
            (if test_inference en then Ok st
             else
               rbind (caluclate_tp_fp pred pred_score gt_box_tensor thr_03 st) (λ st,
               rbind (caluclate_tp_fp pred pred_score gt_box_tensor thr_05 st) (λ st,
               caluclate_tp_fp pred pred_score gt_box_tensor thr_07 st)))
            (λ st,
               let lidar := origin_lidar batch_data in
               let st := if save_npy opt
                         then log (save_events en frame_id pred pred_score gt_box_tensor lidar) st
                         else st in
               let st := if negb (save_vis_n opt =? 0) && (Z.of_nat i <? save_vis_n opt)
                         then log (vis_events en frame_id pred gt_box_tensor lidar) st
                         else st in
               Ok st)
      end
  end.

Fixpoint eval_loop (en : env) (i : nat) (frames : list Batch) (st : state) : result :=
  match frames with
  | [] => Ok st
  | batch :: rest => rbind (frame_body en i batch st) (eval_loop en (S i) rest)
  end.

(** [sum(total_comm_rates)]: Python starts from the int [0]. *)
Inductive pysum :=
| SumInt (z : Z)
| SumTensor (t : Tensor).

Definition py_add (acc : pysum) (t : Tensor) : pysum :=
  match acc with
  | SumInt z => SumTensor (tensor_radd z t)
  | SumTensor a => SumTensor (tensor_add a t)
  end.

Definition py_sum (l : list Tensor) : pysum := foldl py_add (SumInt 0) l.

(** Lines 237-240: the rate the report shows.  An int has no [.item()]. *)
Definition mean_comm_rates (total : list Tensor) : exn + pynum :=
  if bool_decide (0 < length total)%nat then
    match py_sum total with
    | SumTensor t => inr (PyFloat (tensor_item (tensor_div t (Z.of_nat (length total)))))
    | SumInt _ => inl AttributeError
    end
  else inr (PyInt 0).

(** Lines 244-246: the message written to [result.txt]. *)
Definition report_msg (epoch_id : string) (ap_30 ap_50 ap_70 : float)
    (comm_rates : pynum) (thre : option float) : string :=
  let msg :=
    "Epoch: " +:+ epoch_id +:+ " | AP @0.3: " +:+ format_fixed 4 ap_30
    +:+ " | AP @0.5: " +:+ format_fixed 4 ap_50
    +:+ " | AP @0.7: " +:+ format_fixed 4 ap_70
    +:+ " | comm_rate: " +:+ format_f 6 comm_rates +:+ newline in
  match thre with
  | Some t =>
      "Epoch: " +:+ epoch_id +:+ " | AP @0.3: " +:+ format_fixed 4 ap_30
      +:+ " | AP @0.5: " +:+ format_fixed 4 ap_50
      +:+ " | AP @0.7: " +:+ format_fixed 4 ap_70
      +:+ " | comm_rate: " +:+ format_f 6 comm_rates
      +:+ " | comm_thre: " +:+ format_fixed 4 t +:+ newline
  | None => msg
  end.

(** [result_stat] as line 133 creates it. *)
Definition empty_stat : threshold_stat Mark := mk_threshold_stat [] [] 0.

Definition init_result_stat : gmap Qc (threshold_stat Mark) :=
  <[thr_03 := empty_stat]> (<[thr_05 := empty_stat]> (<[thr_07 := empty_stat]> ∅)).

(** What a finished run has computed. *)
Record summary := mk_summary {
  epoch_id : string;
  ap_30 : float;
  ap_50 : float;
  ap_70 : float;
  comm_rates : pynum;
  msg : string
}.

Inductive outcome :=
| Finished (st : state) (s : summary)
| Raised (e : exn) (st : state).

(** The configuration after lines 93-96. *)
Definition configure (opt : Opt) (hypes : Hypes) : Hypes :=
  let thre := match comm_thre opt with
              | Some t => Some t
              | None => communication_thre hypes
              end in
  mk_hypes (test_dir hypes) (test_dir hypes) thre (gt_range hypes).

(** The constants of the run, lines 91-130. *)
Definition run_env (opt : Opt) (loaded : Hypes) : env :=
  let hypes := configure opt loaded in
  mk_env opt hypes
    (str_contains "test.json" (test_dir hypes))
    (str_contains "OPV2V" (test_dir hypes))
    (build_dataset hypes)
    (load_saved_model (model_dir opt) (create_model hypes) (eval_epoch opt)).2.

Definition run_epoch_id (opt : Opt) (loaded : Hypes) : string :=
  (load_saved_model (model_dir opt) (create_model (configure opt loaded)) (eval_epoch opt)).1.

(** The state when the loop starts: the fresh [result_stat], no sample,
    and what was printed on the way. *)
Definition start_state (en : env) : state :=
  mk_state init_result_stat []
    [ EvPrint ("Left hand visualizing: " +:+ str_of_bool (left_hand en));
      EvPrint "Dataset Building";
      EvPrint "Creating Model";
      EvPrint "Loading Model from checkpoint" ].

(** [main], given the parsed options, the loaded configuration and the
    batches the data loader yields, in order.  Before line 133 there is
    no [result_stat]; the state of a run that stops there has none. *)
Definition main (opt : Opt) (loaded : Hypes) (data_loader : list Batch) : outcome :=
  if negb (str_in (fusion_method opt) supported_methods) then
    Raised AssertionError (mk_state ∅ [] [])
  else
    let en := run_env opt loaded in
    let saved_path := model_dir opt in
    let epoch := run_epoch_id opt loaded in
    match eval_loop en 0 data_loader (start_state en) with
    | Raise e st => Raised e st
    | Ok st =>
        match mean_comm_rates (total_comm_rates st) with
        | inl e => Raised e st
        | inr rate =>
            let st := log [EvEvalFinalResults (model_dir opt)] st in
            let '(a30, a50, a70) := eval_final_results (result_stat st) (model_dir opt) in
            let m := report_msg epoch a30 a50 a70 rate (comm_thre opt) in
            let st := log [EvAppend (path_join saved_path "result.txt") m; EvPrint m] st in
            Finished st (mk_summary epoch a30 a50 a70 rate m)
        end
    end.

Definition final_state (o : outcome) : state :=
  match o with Finished st _ => st | Raised _ st => st end.

Definition final_summary (o : outcome) : option summary :=
  match o with Finished _ s => Some s | Raised _ _ => None end.

Definition raised (o : outcome) : option exn :=
  match o with Finished _ _ => None | Raised e _ => Some e end.

(** ** Reading a run

    What the frames of a run contribute, stated frame by frame and apart
    from the loop, for the properties below to refer to. *)

(** What the pipeline chosen by the options returns for a batch. *)
Definition frame_out (en : env) (b : Batch)
  : option (option Tensor * option Tensor * option Tensor * option Tensor) :=
  dispatch (fusion_method (env_opt en)) (to_device b) (env_model en) (env_dataset en).

(** The frames with a predicted box set, in order, with what the
    pipeline returned for them. *)
Definition processed (en : env) (frames : list Batch)
  : list (Tensor * option Tensor * option Tensor) :=
  omap (λ b, match frame_out en b with
             | Some (Some p, s, g, _) => Some (p, s, g)
             | _ => None
             end) frames.

(** The rates the pipelines reported, in order. *)
Definition sampled_rates (en : env) (frames : list Batch) : list Tensor :=
  omap (λ b, match frame_out en b with
             | Some (_, _, _, c) => c
             | None => None
             end) frames.

(** One record per processed frame on the entry [x] of threshold [thr]. *)
Definition record_frames (thr : Qc) (x : threshold_stat Mark)
    (ps : list (Tensor * option Tensor * option Tensor)) : threshold_stat Mark :=
  foldl (λ acc '(p, s, g), stat_record (frame_tp_fp p s g thr) acc) x ps.

(** The entry of [thr] after the frames: nothing is recorded when the
    test-inference switch is on. *)
Definition accumulated (en : env) (thr : Qc) (x : threshold_stat Mark)
    (frames : list Batch) : threshold_stat Mark :=
  if test_inference en then x else record_frames thr x (processed en frames).

Definition stat3 (a b c : threshold_stat Mark) : gmap Qc (threshold_stat Mark) :=
  <[thr_03 := a]> (<[thr_05 := b]> (<[thr_07 := c]> ∅)).

(** What frame [i] adds to the trace. *)
Definition frame_events (en : env) (i : nat) (b : Batch) : list event :=
  match frame_out en b with
  | None => []
  | Some (p, s, g, _) =>
      EvInference i (fusion_method (env_opt en)) ::
      match p with
      | None => []
      | Some pred =>
          let frame_id := sample_idx (to_device b) in
          let lidar := origin_lidar (to_device b) in
          (if save_npy (env_opt en) then save_events en frame_id pred s g lidar else [])
          ++ (if negb (save_vis_n (env_opt en) =? 0) && (Z.of_nat i <? save_vis_n (env_opt en))
              then vis_events en frame_id pred g lidar else [])
      end
  end.

Fixpoint loop_events (en : env) (i : nat) (frames : list Batch) : list event :=
  match frames with
  | [] => []
  | b :: rest => frame_events en i b ++ loop_events en (S i) rest
  end.

(** The arithmetic mean of the samples, in the tensors' arithmetic and
    read back as a float; the int [0] when there is none. *)
Definition spec_mean (samples : list Tensor) : pynum :=
  match samples with
  | [] => PyInt 0
  | x :: rest =>
      PyFloat (tensor_item
                 (tensor_div (foldl tensor_add (tensor_radd 0 x) rest)
                    (Z.of_nat (length samples))))
  end.

(** The report line as the interface describes it:
    [Epoch: <id> | AP @0.3: <4dp> | AP @0.5: <4dp> | AP @0.7: <4dp> |
    comm_rate: <6dp>], then the optional suffix, then the end of line. *)
Definition spec_report_base (epoch : string) (a30 a50 a70 : float) (rate : pynum) : string :=
  "Epoch: " +:+ epoch +:+ " | AP @0.3: " +:+ format_fixed 4 a30
  +:+ " | AP @0.5: " +:+ format_fixed 4 a50
  +:+ " | AP @0.7: " +:+ format_fixed 4 a70
  +:+ " | comm_rate: " +:+ format_f 6 rate.

Definition spec_report_suffix (thre : option float) : string :=
  match thre with
  | Some t => " | comm_thre: " +:+ format_fixed 4 t
  | None => ""
  end.

(** The writes to files among the events. *)
Definition appends (tr : list event) : list (string * string) :=
  omap (λ ev, match ev with EvAppend p s => Some (p, s) | _ => None end) tr.

(** The paths of the images drawn, in order. *)
Definition vis_paths (tr : list event) : list string :=
  omap (λ ev, match ev with EvVisualize _ _ _ _ p _ _ => Some p | _ => None end) tr.

(** The identifiers handed to the raw-prediction sink, in order. *)
Definition saved_frames (tr : list event) : list Z :=
  omap (λ ev, match ev with EvSavePredictionGt _ _ _ _ id _ => Some id | _ => None end) tr.

(** An event without the names derived from a frame identifier. *)
Definition erase_names (ev : event) : event :=
  match ev with
  | EvSavePredictionGt pred score g lidar _ path =>
      EvSavePredictionGt pred score g lidar 0 path
  | EvVisualize pred g lidar range _ method lh =>
      EvVisualize pred g lidar range "" method lh
  | _ => ev
  end.

Definition with_test_inference (flag : bool) (en : env) : env :=
  mk_env (env_opt en) (env_hypes en) flag (left_hand en) (env_dataset en) (env_model en).

End Driver.

(** The source format of a box, and the reordering the interface
    describes for it: one fixed permutation per format. *)
Inductive source_format := Predicted | LegacyLabel.

Definition spec_canonicalize (f : source_format) (b : box) : option box :=
  fancy_index b (match f with Predicted => perm_pred | LegacyLabel => perm_label end).

(** The reordering [result2dict] applies when scores are given:
    [b3d[perm_label][perm_pred]] has at place [k] the corner
    [perm_label[perm_pred[k]]] of [b3d]. *)
Definition composite_perm : list nat := [3; 7; 4; 0; 2; 6; 5; 1]%nat.

(** ** A small world to run the driver in

    Tensors are flat lists of floats, a batch carries what its pipeline
    will return, a detection is a true positive when its score reaches
    the threshold, and the AP of a threshold is the share of true
    positives among the ground truths. *)
Module Toy.

Record batch := mk_batch {
  idx : Z;
  pred : option (list float);
  score : option (list float);
  gtb : option (list float);
  rate : list float;
  lidar : list float
}.

Definition of_int (z : Z) : float := PrimFloat.of_uint63 (Uint63.of_Z z).

Definition float_of_Qc (q : Qc) : float :=
  (of_int (Qnum (this q)) / of_int (Z.pos (Qden (this q))))%float.

Definition classify (p : list float) (s g : option (list float)) (thr : Qc)
  : list bool * list bool * Z :=
  let scores := default [] s in
  ((λ x, PrimFloat.leb (float_of_Qc thr) x) <$> scores,
   (λ x, negb (PrimFloat.leb (float_of_Qc thr) x)) <$> scores,
   Z.of_nat (length (default [] g))).

Definition ap (rs : gmap Qc (threshold_stat bool)) (thr : Qc) : float :=
  match rs !! thr with
  | Some s =>
      if (0 <? gt s)%Z
      then (of_int (Z.of_nat (length (filter (λ b, b = true) (tp s)))) / of_int (gt s))%float
      else 0%float
  | None => 0%float
  end.

#[export] Instance world : External := {|
  Tensor := list float;
  Batch := batch;
  Dataset := unit;
  Model := unit;
  Mark := bool;
  build_dataset _ := ();
  create_model _ := ();
  load_saved_model _ m e := (default "30" e, m);
  to_device b := b;
  sample_idx := idx;
  origin_lidar := lidar;
  inference_late_fusion b _ _ := (pred b, score b, gtb b);
  inference_early_fusion b _ _ := (pred b, score b, gtb b);
  inference_intermediate_fusion b _ _ := (pred b, score b, gtb b);
  inference_no_fusion b _ _ := (pred b, score b, gtb b);
  inference_intermediate_fusion_withcomm b _ _ := (pred b, score b, gtb b, rate b);
  frame_tp_fp := classify;
  eval_final_results rs _ := (ap rs thr_03, ap rs thr_05, ap rs thr_07);
  tensor_radd z t := (λ x, (of_int z + x)%float) <$> t;
  tensor_add := zip_with PrimFloat.add;
  tensor_div t z := (λ x, (x / of_int z)%float) <$> t;
  tensor_item t := default 0%float (head t)
|}.

Definition opt_comm : Opt :=
  mk_opt "/logs/run" "intermediate_with_comm" 10 true None (Some 0.25%float).

Definition opt_late : Opt :=
  mk_opt "/logs/run" "late" 1 false (Some "12") None.

Definition opt_bad : Opt :=
  mk_opt "/logs/run" "no_w_uncertainty" 10 false None None.

Definition hypes_val : Hypes :=
  mk_hypes "data/OPV2V/validate" "data/OPV2V/train" None [1%float].

Definition hypes_test : Hypes :=
  mk_hypes "data/dair/test.json" "data/dair/val.json" None [1%float].

(** A frame with two detections and one ground truth, a frame without
    prediction, and a frame with one detection. *)
Definition frame_a : batch :=
  mk_batch 7 (Some [1%float; 2%float]) (Some [0.75%float; 0.25%float])
    (Some [1%float]) [0.25%float] [9%float].
Definition frame_none : batch :=
  mk_batch 8 None None (Some [3%float]) [0.75%float] [].
Definition frame_b : batch :=
  mk_batch 9 (Some [4%float]) (Some [0.5%float]) (Some [4%float]) [0.5%float] [9%float].

(** The frames of [frame_a] and [frame_b] under other identifiers. *)
Definition frame_a' : batch :=
  mk_batch 1007 (pred frame_a) (score frame_a) (gtb frame_a) (rate frame_a) (lidar frame_a).
Definition frame_b' : batch :=
  mk_batch (-3) (pred frame_b) (score frame_b) (gtb frame_b) (rate frame_b) (lidar frame_b).

(** A box with eight distinct corners, alone in its array. *)
Definition box8 : box :=
  [[0%float]; [1%float]; [2%float]; [3%float]; [4%float]; [5%float]; [6%float]; [7%float]].
Definition one_box : ndarray3 := mk_ndarray3 (1%nat, 8%nat, 1%nat) [box8].

End Toy.

(** ** baseline_pkl2dict *)

(** An array of either rank, as a pickled result holds them. *)
Inductive ndarray :=
| Arr3 (a : ndarray3)
| Arr1 (a : ndarray1).

Definition array1_len (a : ndarray1) : nat :=
  match a with IntArray l => length l | FloatArray l => length l end.

(** [a.shape[0]]. *)
Definition shape0 (a : ndarray) : nat :=
  match a with
  | Arr3 a => (shape a).1.1
  | Arr1 a => array1_len a
  end.

(** The dictionaries [baseline_pkl2dict] returns. *)
Record array_dict := mk_array_dict {
  d_boxes_3d : ndarray;
  d_scores_3d : ndarray;
  d_labels_3d : ndarray
}.

(** The dictionary of [result2dict], its arrays seen as arrays of
    either rank. *)
Definition as_array_dict (o : output_dict) : array_dict :=
  mk_array_dict (Arr3 (boxes_3d o)) (Arr1 (scores_3d o)) (Arr1 (labels_3d o)).

Definition baseline_result_path : string := "/root/result".

(** Line 46; ['{:06}'.format(z)] pads an int like ['%06d' % z]. *)
Definition pkl_file_of (frame_id : Z) : string :=
  path_join baseline_result_path (fmt_zero_pad 6 frame_id +:+ ".pkl").

(** [baseline_pkl2dict], given the files that exist, each with the
    dictionary [pickle.load] reads from it (a file that cannot be
    unpickled is not among them).  A missing key of that dictionary is
    a KeyError.  [np.int] and [np.float] are the builtin types, as in
    numpy before 1.24; later versions have neither. *)
Definition baseline_pkl2dict (files : gmap string (gmap string ndarray)) (frame_id : Z)
  : exn + array_dict * array_dict :=
  let pkl_file := pkl_file_of frame_id in
  match files !! pkl_file with
  | Some results =>
      match results !! "boxes_3d", results !! "labels_3d", results !! "scores_3d",
            results !! "label" with
      | Some boxes_3d, Some labels_3d, Some scores_3d, Some gt_boxes_3d =>
          let gt_labels_3d := Arr1 (IntArray (replicate (shape0 gt_boxes_3d) 2)) in
          let gt_scores_3d := Arr1 (FloatArray (replicate (shape0 gt_boxes_3d) 1%float)) in
          inr (mk_array_dict boxes_3d scores_3d labels_3d,
               mk_array_dict gt_boxes_3d gt_scores_3d gt_labels_3d)
      | _, _, _, _ => inl KeyError
      end
  | None =>
      inr (mk_array_dict (Arr3 np_ones_0_8_3) (Arr1 np_zeros_0) (Arr1 np_zeros_0),
           mk_array_dict (Arr3 np_ones_0_8_3) (Arr1 np_zeros_0) (Arr1 np_zeros_0))
  end.

(** The number a decimal string denotes: an optional minus sign, then
    digits, leading zeros allowed. *)
Definition read_decimal (s : string) : option Z :=
  Z.of_int <$> NilEmpty.int_of_string s.

(** ** More ways to read a run *)

Section DriverReading.
Context `{E : External}.

(** The loop indices of the pipeline calls, in order. *)
Definition inference_indices (tr : list event) : list nat :=
  omap (λ ev, match ev with EvInference i _ => Some i | _ => None end) tr.

(** The pipeline calls, in order: the loop index and the method whose
    pipeline was run. *)
Definition inference_calls (tr : list event) : list (nat * string) :=
  omap (λ ev, match ev with EvInference i m => Some (i, m) | _ => None end) tr.

(** The identifiers of the frames with a predicted box set, in order. *)
Definition processed_ids (en : env) (frames : list Batch) : list Z :=
  omap (λ b, match frame_out en b with
             | Some (Some _, _, _, _) => Some (sample_idx (to_device b))
             | _ => None
             end) frames.

(** The options with other values of [--save_vis_n] and [--save_npy]. *)
Definition with_artifacts (n : Z) (npy : bool) (opt : Opt) : Opt :=
  mk_opt (model_dir opt) (fusion_method opt) n npy (eval_epoch opt) (comm_thre opt).

End DriverReading.

(** Pickled results for the frame 7: two predicted boxes and three
    label boxes; and one that lacks its labels. *)
Module ToyFiles.

Definition two_boxes : ndarray3 := mk_ndarray3 (2%nat, 8%nat, 1%nat) [Toy.box8; Toy.box8].
Definition three_boxes : ndarray3 :=
  mk_ndarray3 (3%nat, 8%nat, 1%nat) [Toy.box8; Toy.box8; Toy.box8].

Definition stored : gmap string ndarray :=
  <["boxes_3d" := Arr3 two_boxes]>
  (<["labels_3d" := Arr1 (IntArray [2; 2])]>
  (<["scores_3d" := Arr1 (FloatArray [0.75%float; 0.5%float])]>
  (<["label" := Arr3 three_boxes]> ∅))).

Definition unlabelled : gmap string ndarray := delete "label" stored.

Definition files : gmap string (gmap string ndarray) :=
  <[pkl_file_of 7 := stored]> (<[pkl_file_of 8 := unlabelled]> ∅).

(** A tensor of two boxes with nine corners each. *)
Definition box9 : box := Toy.box8 ++ [[8%float]].
Definition nine_corners : ndarray3 := mk_ndarray3 (2%nat, 9%nat, 1%nat) [box9; box9].

(** A tensor with a box of seven corners. *)
Definition seven_corners : ndarray3 :=
  mk_ndarray3 (1%nat, 7%nat, 1%nat) [take 7 Toy.box8].

End ToyFiles.

(** * Properties of [result2dict] *)

Lemma reorder_twice (A : Type) (b : list A) :
  fancy_index b perm_label ≫= (λ b', fancy_index b' perm_pred)
  = fancy_index b composite_perm.
Proof.
  destruct b as [|c0 [|c1 [|c2 [|c3 [|c4 [|c5 [|c6 [|c7 rest]]]]]]]];
    reflexivity.
Qed.

Lemma fancy_index_total (A : Type) (b : list A) (idx : list nat) :
  Forall (λ p, (p < length b)%nat) idx → is_Some (fancy_index b idx).
Proof.
  intros Hidx. apply mapM_is_Some.
  eapply Forall_impl; [exact Hidx|].
  intros p Hp. by apply lookup_lt_is_Some_2.
Qed.

Lemma result2dict_item_scored (s : list float) (i : nat) (b : box) :
  result2dict_item (Some s) i b =
    b' ← fancy_index b composite_perm; sc ← s !! i; Some (b', sc).
Proof. unfold result2dict_item. by rewrite reorder_twice. Qed.

Lemma result2dict_loop_cons (score : option (list float)) (i : nat) (b : box)
    (bs : list box) :
  result2dict_loop score i (b :: bs) =
    x ← result2dict_item score i b;
    xs ← result2dict_loop score (S i) bs;
    Some (x :: xs).
Proof. reflexivity. Qed.

Lemma result2dict_loop_unscored (bs : list box) :
  ∀ i, result2dict_loop None i bs = Some ((λ b, (b, 1%float)) <$> bs).
Proof.
  induction bs as [|b bs IH]; intros i; [done|].
  rewrite result2dict_loop_cons, IH. reflexivity.
Qed.

Lemma result2dict_loop_scored (s : list float) (bs : list box) :
  ∀ i items, result2dict_loop (Some s) i bs = Some items →
    Forall2 (λ b x, fancy_index b composite_perm = Some x.1) bs items.
Proof.
  induction bs as [|b bs IH]; intros i items Hrun.
  - injection Hrun as <-. constructor.
  - rewrite result2dict_loop_cons, result2dict_item_scored in Hrun.
    destruct (fancy_index b composite_perm) as [b'|] eqn:Hb; [|done].
    destruct (s !! i) as [sc|]; [|done].
    destruct (result2dict_loop (Some s) (S i) bs) as [xs|] eqn:Hxs; [|done].
    injection Hrun as <-.
    constructor; [done|]. by eapply IH.
Qed.

Lemma result2dict_loop_returns (s : list float) (bs : list box) :
  ∀ i, Forall (λ b : box, (8 ≤ length b)%nat) bs → (i + length bs ≤ length s)%nat →
    is_Some (result2dict_loop (Some s) i bs).
Proof.
  induction bs as [|b bs IH]; intros i Hbs Hlen; [by eexists|].
  inversion Hbs as [|? ? Hb Hbs']; subst. cbn [length] in Hlen.
  rewrite result2dict_loop_cons, result2dict_item_scored.
  destruct (fancy_index_total _ b composite_perm) as [b' ->].
  { unfold composite_perm. repeat constructor; lia. }
  destruct (lookup_lt_is_Some_2 s i) as [sc ->]; [lia|].
  destruct (IH (S i)) as [xs ->]; [done|lia|]. by eexists.
Qed.

Lemma fst_pair_with (A B : Type) (y : B) (l : list A) :
  ((λ a, (a, y)) <$> l).*1 = l.
Proof. induction l as [|a l IH]; [done|]. cbn. by rewrite IH. Qed.

Lemma snd_pair_with (A B : Type) (y : B) (l : list A) :
  ((λ a, (a, y)) <$> l).*2 = replicate (length l) y.
Proof. induction l as [|a l IH]; [done|]. cbn. by rewrite IH. Qed.

Lemma result2dict_unscored_rows (sh : nat * nat * nat) (bs : list box) :
  ∃ out, result2dict (mk_ndarray3 sh bs) None = Some out ∧ rows (boxes_3d out) = bs.
Proof.
  unfold result2dict. destruct sh as [[n c] k]. cbn [shape rows].
  rewrite result2dict_loop_unscored. cbn [mbind option_bind].
  case_bool_decide as Hlen; eexists; (split; [reflexivity|]); cbn [boxes_3d rows].
  - apply fst_pair_with.
  - destruct bs; [done|]. cbn in Hlen. lia.
Qed.

(** C10: without a score tensor every box comes out as it went in, with
    score 1.0 and label 2; an empty box tensor gives the empty arrays of
    shapes (0, 8, 3), (0) and (0), whatever the scores. *)
Theorem result2dict_without_scores (sh : nat * nat * nat) (bs : list box) :
  result2dict (mk_ndarray3 sh bs) None =
    Some (match bs with
          | [] => {| boxes_3d := mk_ndarray3 (0, 8, 3)%nat [];
                     scores_3d := FloatArray [];
                     labels_3d := FloatArray [] |}
          | _ :: _ => {| boxes_3d := mk_ndarray3 (length bs, sh.1.2, sh.2) bs;
                         scores_3d := FloatArray (replicate (length bs) 1%float);
                         labels_3d := IntArray (replicate (length bs) 2) |}
          end)
  ∧ ∀ score, result2dict (mk_ndarray3 sh []) score =
      Some {| boxes_3d := mk_ndarray3 (0, 8, 3)%nat [];
              scores_3d := FloatArray [];
              labels_3d := FloatArray [] |}.
Proof.
  split.
  - unfold result2dict. destruct sh as [[n c] k]. cbn [shape rows].
    rewrite result2dict_loop_unscored. cbn [mbind option_bind].
    destruct bs as [|b bs]; [done|].
    rewrite bool_decide_eq_true_2 by (cbn; lia).
    rewrite length_fmap, fst_pair_with, snd_pair_with. reflexivity.
  - intros score. unfold result2dict. by destruct sh as [[n c] k].
Qed.

(** C1, as the code has it: the two index lists are distinct
    permutations of the eight corner places; with scores every box is
    reordered by both, [perm_label] then [perm_pred], which moves corner
    [perm_label[perm_pred[k]]] to place [k]; without scores no box is
    reordered.  No coordinate is computed. *)
Theorem result2dict_reorders_by_composite (t : ndarray3) (s : list float) :
  wf_ndarray3 t → (8 ≤ (shape t).1.2)%nat → (length (rows t) ≤ length s)%nat →
  (perm_pred ≡ₚ seq 0 8 ∧ perm_label ≡ₚ seq 0 8 ∧ perm_pred ≠ perm_label) ∧
  composite_perm = (λ k, default 0%nat (perm_label !! k)) <$> perm_pred ∧
  (∃ out, result2dict t (Some s) = Some out ∧
     Forall2 (λ b b', fancy_index b composite_perm = Some b')
       (rows t) (rows (boxes_3d out))) ∧
  (∃ out, result2dict t None = Some out ∧ rows (boxes_3d out) = rows t).
Proof.
  intros Hwf Hc Hs. split; [|split; [reflexivity|split]].
  - split; [|split; [|discriminate]];
      apply (bool_decide_unpack _); vm_compute; exact I.
  - destruct t as [[[n c] k] bs]. unfold wf_ndarray3 in Hwf. cbn in *.
    destruct Hwf as [Hn Hrows].
    destruct (result2dict_loop_returns s bs 0) as [items Hitems].
    { eapply Forall_impl; [exact Hrows|]. cbn. intros b [Hb _]. lia. }
    { cbn. lia. }
    pose proof (result2dict_loop_scored _ _ _ _ Hitems) as Hall.
    unfold result2dict. cbn [shape rows]. rewrite Hitems. cbn [mbind option_bind].
    case_bool_decide as Hlen.
    + eexists. split; [reflexivity|]. cbn [boxes_3d rows].
      clear -Hall. induction Hall; cbn; constructor; auto.
    + eexists. split; [reflexivity|]. cbn.
      destruct items; [|cbn in Hlen; lia].
      inversion Hall. constructor.
  - destruct t as [sh bs].
    destruct (result2dict_unscored_rows sh bs) as [out [-> Hout]].
    by exists out.
Qed.

(** * Properties of the evaluation driver *)

Lemma thr_03_05 : thr_03 ≠ thr_05.
Proof. intros H. apply (f_equal this) in H. vm_compute in H. discriminate. Qed.

Lemma thr_03_07 : thr_03 ≠ thr_07.
Proof. intros H. apply (f_equal this) in H. vm_compute in H. discriminate. Qed.

Lemma thr_05_07 : thr_05 ≠ thr_07.
Proof. intros H. apply (f_equal this) in H. vm_compute in H. discriminate. Qed.

Section DriverFacts.
Context `{E : External}.

Implicit Types (en : env) (st : state) (b : Batch) (frames : list Batch).
Implicit Types (x y z : threshold_stat Mark).

(** *** The accumulator as a map with three keys *)

Lemma stat3_lookup_03 x y z : stat3 x y z !! thr_03 = Some x.
Proof. unfold stat3. by rewrite lookup_insert_eq. Qed.

Lemma stat3_lookup_05 x y z : stat3 x y z !! thr_05 = Some y.
Proof.
  unfold stat3. rewrite lookup_insert_ne by apply thr_03_05.
  by rewrite lookup_insert_eq.
Qed.

Lemma stat3_lookup_07 x y z : stat3 x y z !! thr_07 = Some z.
Proof.
  unfold stat3. rewrite lookup_insert_ne by apply thr_03_07.
  rewrite lookup_insert_ne by apply thr_05_07.
  by rewrite lookup_insert_eq.
Qed.

Lemma stat3_insert_03 x x' y z : <[thr_03 := x']> (stat3 x y z) = stat3 x' y z.
Proof. unfold stat3. by rewrite insert_insert_eq. Qed.

Lemma stat3_insert_05 x y y' z : <[thr_05 := y']> (stat3 x y z) = stat3 x y' z.
Proof.
  unfold stat3. rewrite (insert_insert_ne _ thr_05 thr_03); [|by intros H; apply thr_03_05].
  by rewrite insert_insert_eq.
Qed.

Lemma stat3_insert_07 x y z z' : <[thr_07 := z']> (stat3 x y z) = stat3 x y z'.
Proof.
  unfold stat3. rewrite (insert_insert_ne _ thr_07 thr_03); [|by intros H; apply thr_03_07].
  rewrite (insert_insert_ne _ thr_07 thr_05); [|by intros H; apply thr_05_07].
  by rewrite insert_insert_eq.
Qed.

Lemma stat3_dom x y z : dom (stat3 x y z) = ({[thr_03; thr_05; thr_07]} : gset Qc).
Proof.
  unfold stat3. rewrite !dom_insert_L, dom_empty_L. set_solver.
Qed.

Lemma init_result_stat_stat3 : init_result_stat = stat3 empty_stat empty_stat empty_stat.
Proof. reflexivity. Qed.

(** *** The dispatch on the fusion method *)

Lemma dispatch_supported (m : string) b (M : Model) (D : Dataset) :
  str_in m supported_methods = true → is_Some (dispatch m b M D).
Proof.
  intros Hin. apply bool_decide_eq_true_1 in Hin.
  unfold supported_methods in Hin.
  repeat (apply elem_of_cons in Hin as [->|Hin]);
    [| | | | | by apply elem_of_nil in Hin]; unfold dispatch; cbn;
    try (by eexists).
  destruct (inference_intermediate_fusion_withcomm b M D) as [[[p s] g] c].
  by eexists.
Qed.

Lemma dispatch_some_supported (m : string) b (M : Model) (D : Dataset) r :
  dispatch m b M D = Some r → str_in m supported_methods = true.
Proof.
  unfold dispatch. intros H.
  apply bool_decide_eq_true_2. unfold supported_methods.
  destruct (String.eqb_spec m "late") as [->|_]; [set_solver|].
  destruct (String.eqb_spec m "early") as [->|_]; [set_solver|].
  destruct (String.eqb_spec m "intermediate") as [->|_]; [set_solver|].
  destruct (String.eqb_spec m "no") as [->|_]; [set_solver|].
  destruct (String.eqb_spec m "intermediate_with_comm") as [->|_]; [set_solver|].
  discriminate.
Qed.

Lemma dispatch_with_comm b (M : Model) (D : Dataset) :
  dispatch "intermediate_with_comm" b M D =
    let '(p, s, g, c) := inference_intermediate_fusion_withcomm b M D in
    Some (p, s, g, Some c).
Proof. reflexivity. Qed.

Lemma dispatch_without_comm (m : string) b (M : Model) (D : Dataset) p s g c :
  m ≠ "intermediate_with_comm" → dispatch m b M D = Some (p, s, g, c) → c = None.
Proof.
  unfold dispatch. intros Hm H.
  destruct (String.eqb_spec m "late"); [by injection H as _ <-|].
  destruct (String.eqb_spec m "early"); [by injection H as _ <-|].
  destruct (String.eqb_spec m "intermediate"); [by injection H as _ <-|].
  destruct (String.eqb_spec m "no"); [by injection H as _ <-|].
  destruct (String.eqb_spec m "intermediate_with_comm"); [done|discriminate].
Qed.

(** *** One frame, then the loop *)

Lemma caluclate_tp_fp_03 pred sc g st x y z :
  result_stat st = stat3 x y z →
  caluclate_tp_fp pred sc g thr_03 st =
    Ok (set_result_stat (stat3 (stat_record (frame_tp_fp pred sc g thr_03) x) y z) st).
Proof.
  intros H. unfold caluclate_tp_fp. rewrite H, stat3_lookup_03.
  by rewrite stat3_insert_03.
Qed.

Lemma caluclate_tp_fp_05 pred sc g st x y z :
  result_stat st = stat3 x y z →
  caluclate_tp_fp pred sc g thr_05 st =
    Ok (set_result_stat (stat3 x (stat_record (frame_tp_fp pred sc g thr_05) y) z) st).
Proof.
  intros H. unfold caluclate_tp_fp. rewrite H, stat3_lookup_05.
  by rewrite stat3_insert_05.
Qed.

Lemma caluclate_tp_fp_07 pred sc g st x y z :
  result_stat st = stat3 x y z →
  caluclate_tp_fp pred sc g thr_07 st =
    Ok (set_result_stat (stat3 x y (stat_record (frame_tp_fp pred sc g thr_07) z)) st).
Proof.
  intros H. unfold caluclate_tp_fp. rewrite H, stat3_lookup_07.
  by rewrite stat3_insert_07.
Qed.

Lemma processed_one_none en b s g c :
  frame_out en b = Some (None, s, g, c) → processed en [b] = [].
Proof. intros H. unfold processed. cbn. by rewrite H. Qed.

Lemma processed_one_some en b pred s g c :
  frame_out en b = Some (Some pred, s, g, c) → processed en [b] = [(pred, s, g)].
Proof. intros H. unfold processed. cbn. by rewrite H. Qed.

Lemma frame_body_step en i b st x y z r :
  frame_out en b = Some r → result_stat st = stat3 x y z →
  ∃ st', frame_body en i b st = Ok st' ∧
    result_stat st' = stat3 (accumulated en thr_03 x [b]) (accumulated en thr_05 y [b])
                        (accumulated en thr_07 z [b]) ∧
    total_comm_rates st' = total_comm_rates st ++ sampled_rates en [b] ∧
    trace st' = trace st ++ frame_events en i b.
Proof.
  intros Hout Hst. destruct r as [[[p s] g] c].
  unfold frame_body, frame_events, accumulated, sampled_rates. cbn [omap list_omap].
  unfold frame_out in *. rewrite Hout.
  assert (Hrates : ∀ st0 : state,
    total_comm_rates (match c with Some cr => append_comm_rate cr st0 | None => st0 end)
    = total_comm_rates st0 ++ match c with Some cr => [cr] | None => [] end).
  { intros st0. destruct c; cbn; [done|by rewrite app_nil_r]. }
  destruct p as [pred|].
  - rewrite (processed_one_some en b pred s g c) by exact Hout.
    set (st1 := match c with
                | Some cr => append_comm_rate cr (log [EvInference i (fusion_method (env_opt en))] st)
                | None => log [EvInference i (fusion_method (env_opt en))] st
                end).
    assert (Hst1 : result_stat st1 = stat3 x y z) by (subst st1; by destruct c).
    assert (Htr1 : trace st1 = trace st ++ [EvInference i (fusion_method (env_opt en))])
      by (subst st1; by destruct c).
    assert (Hcr1 : total_comm_rates st1
                   = total_comm_rates st ++ match c with Some cr => [cr] | None => [] end).
    { subst st1. rewrite Hrates. done. }
    destruct (test_inference en).
    + cbn [rbind]. eexists. split; [reflexivity|].
      destruct (save_npy (env_opt en)),
        (negb (save_vis_n (env_opt en) =? 0) && (Z.of_nat i <? save_vis_n (env_opt en)));
        cbn [log result_stat total_comm_rates trace];
        rewrite Hst1, Hcr1, Htr1; (split; [done|]); (split; [by destruct c|]);
        rewrite <- ?app_assoc; cbn; by rewrite ?app_nil_r.
    + rewrite (caluclate_tp_fp_03 _ _ _ _ x y z) by exact Hst1. cbn [rbind].
      rewrite (caluclate_tp_fp_05 _ _ _ _ _ y z) by reflexivity. cbn [rbind].
      rewrite (caluclate_tp_fp_07 _ _ _ _ _ _ z) by reflexivity. cbn [rbind].
      eexists. split; [reflexivity|].
      destruct (save_npy (env_opt en)),
        (negb (save_vis_n (env_opt en) =? 0) && (Z.of_nat i <? save_vis_n (env_opt en)));
        cbn [log set_result_stat result_stat total_comm_rates trace];
        rewrite Hcr1, Htr1; (split; [done|]); (split; [by destruct c|]);
        rewrite <- ?app_assoc; cbn; by rewrite ?app_nil_r.
  - rewrite (processed_one_none en b s g c) by exact Hout.
    eexists. split; [reflexivity|]. rewrite Hrates.
    split; [|split].
    + destruct c; cbn; rewrite Hst; by destruct (test_inference en).
    + by destruct c.
    + by destruct c.
Qed.

Lemma accumulated_app en thr x frames1 frames2 :
  accumulated en thr x (frames1 ++ frames2)
  = accumulated en thr (accumulated en thr x frames1) frames2.
Proof.
  unfold accumulated. destruct (test_inference en); [done|].
  unfold record_frames, processed. by rewrite omap_app, foldl_app.
Qed.

Lemma sampled_rates_app en frames1 frames2 :
  sampled_rates en (frames1 ++ frames2) = sampled_rates en frames1 ++ sampled_rates en frames2.
Proof. apply omap_app. Qed.

Lemma loop_events_app en frames1 frames2 :
  ∀ i, loop_events en i (frames1 ++ frames2)
       = loop_events en i frames1 ++ loop_events en (i + length frames1) frames2.
Proof.
  induction frames1 as [|b frames1 IH]; intros i; cbn.
  - by rewrite Nat.add_0_r.
  - rewrite IH, <- app_assoc. do 3 f_equal. lia.
Qed.

Lemma eval_loop_spec en frames :
  ∀ i st x y z,
    Forall (λ b, is_Some (frame_out en b)) frames →
    result_stat st = stat3 x y z →
    ∃ st', eval_loop en i frames st = Ok st' ∧
      result_stat st' = stat3 (accumulated en thr_03 x frames)
                          (accumulated en thr_05 y frames)
                          (accumulated en thr_07 z frames) ∧
      total_comm_rates st' = total_comm_rates st ++ sampled_rates en frames ∧
      trace st' = trace st ++ loop_events en i frames.
Proof.
  induction frames as [|b frames IH]; intros i st x y z Hall Hst.
  - exists st. split; [done|]. unfold accumulated, sampled_rates. cbn.
    rewrite !app_nil_r. split; [|done].
    rewrite Hst. by destruct (test_inference en).
  - inversion Hall as [|? ? [r Hr] Hall']; subst.
    destruct (frame_body_step en i b st x y z r Hr Hst)
      as (st1 & Hbody & Hrs1 & Hcr1 & Htr1).
    destruct (IH (S i) st1 _ _ _ Hall' Hrs1) as (st2 & Hloop & Hrs2 & Hcr2 & Htr2).
    exists st2. cbn [eval_loop]. rewrite Hbody. cbn [rbind].
    split; [exact Hloop|].
    rewrite Hrs2, Hcr2, Htr2, Hcr1, Htr1.
    rewrite <- !app_assoc, <- (sampled_rates_app en [b] frames).
    rewrite <- !(accumulated_app en _ _ [b] frames). done.
Qed.

Lemma frames_dispatch en frames :
  str_in (fusion_method (env_opt en)) supported_methods = true →
  Forall (λ b, is_Some (frame_out en b)) frames.
Proof.
  intros Hin. apply Forall_forall. intros b _.
  by apply dispatch_supported.
Qed.

(** *** The mean and the end of the run *)

Lemma py_sum_tensor (a : Tensor) (l : list Tensor) :
  foldl py_add (SumTensor a) l = SumTensor (foldl tensor_add a l).
Proof. revert a. induction l as [|t l IH]; intros a; [done|]. cbn. apply IH. Qed.

Lemma mean_comm_rates_spec (l : list Tensor) : mean_comm_rates l = inr (spec_mean l).
Proof.
  unfold mean_comm_rates, spec_mean. destruct l as [|t l].
  - done.
  - rewrite bool_decide_eq_true_2 by (cbn; lia).
    unfold py_sum. cbn [foldl py_add]. by rewrite py_sum_tensor.
Qed.

Lemma main_finishes (opt : Opt) (loaded : Hypes) frames :
  str_in (fusion_method opt) supported_methods = true →
  ∃ st s, main opt loaded frames = Finished st s ∧
    result_stat st = stat3 (accumulated (run_env opt loaded) thr_03 empty_stat frames)
                       (accumulated (run_env opt loaded) thr_05 empty_stat frames)
                       (accumulated (run_env opt loaded) thr_07 empty_stat frames) ∧
    total_comm_rates st = sampled_rates (run_env opt loaded) frames ∧
    trace st = trace (start_state (run_env opt loaded))
               ++ loop_events (run_env opt loaded) 0 frames
               ++ [EvEvalFinalResults (model_dir opt);
                   EvAppend (path_join (model_dir opt) "result.txt") (msg s);
                   EvPrint (msg s)] ∧
    epoch_id s = run_epoch_id opt loaded ∧
    (ap_30 s, ap_50 s, ap_70 s) = eval_final_results (result_stat st) (model_dir opt) ∧
    comm_rates s = spec_mean (total_comm_rates st) ∧
    msg s = report_msg (epoch_id s) (ap_30 s) (ap_50 s) (ap_70 s) (comm_rates s)
              (comm_thre opt).
Proof.
  intros Hin. unfold main. rewrite Hin. cbn [negb].
  destruct (eval_loop_spec (run_env opt loaded) frames 0
              (start_state (run_env opt loaded)) empty_stat empty_stat empty_stat)
    as (st & Hloop & Hrs & Hcr & Htr).
  { by apply frames_dispatch. }
  { reflexivity. }
  rewrite Hloop, mean_comm_rates_spec.
  cbn [log result_stat total_comm_rates trace].
  destruct (eval_final_results (result_stat st) (model_dir opt)) as [[a30 a50] a70] eqn:Hap.
  eexists _, _. split; [reflexivity|].
  cbn [log result_stat total_comm_rates trace epoch_id ap_30 ap_50 ap_70 comm_rates msg].
  rewrite Hap, Htr, <- !app_assoc. cbn in Hcr. rewrite Hcr.
  repeat split; done.
Qed.

End DriverFacts.

(** *** Strings and the decimals of a formatted float *)

Lemma str_app_assoc (a b c : string) : (a +:+ b) +:+ c = a +:+ (b +:+ c).
Proof.
  induction a as [|ch a IH]; [done|].
  change (String ch ((a +:+ b) +:+ c) = String ch (a +:+ (b +:+ c))).
  by rewrite IH.
Qed.

Lemma str_length_app (a b : string) :
  String.length (a +:+ b) = (String.length a + String.length b)%nat.
Proof.
  induction a as [|ch a IH]; [done|].
  change (S (String.length (a +:+ b)) = S (String.length a + String.length b)).
  by rewrite IH.
Qed.

Lemma zeros_length (n : nat) : String.length (zeros n) = n.
Proof. induction n as [|n IH]; [done|]. unfold zeros in *. cbn. by rewrite IH. Qed.

Lemma substring_length (s : string) :
  ∀ n m, (n + m ≤ String.length s)%nat → String.length (String.substring n m s) = m.
Proof.
  induction s as [|ch s IH]; intros [|n] [|m] H; cbn in *; try lia; try done.
  - rewrite IH; [done|lia].
  - apply IH. lia.
  - apply IH. lia.
Qed.

Lemma point_digits_decimals (p : nat) (n : Z) :
  p ≠ 0%nat →
  ∃ whole frac, point_digits p n = whole +:+ "." +:+ frac ∧ String.length frac = p.
Proof.
  intros Hp. unfold point_digits. cbv zeta.
  rewrite bool_decide_eq_false_2 by exact Hp.
  eexists _, _. split; [reflexivity|].
  apply substring_length. rewrite str_length_app, zeros_length. lia.
Qed.

Lemma format_fixed_decimals (p : nat) (x : float) :
  p ≠ 0%nat → finite_float x = true →
  ∃ whole frac, format_fixed p x = whole +:+ "." +:+ frac ∧ String.length frac = p.
Proof.
  intros Hp Hfin. unfold format_fixed, finite_float in *.
  destruct (Prim2SF x) as [sg|sg| |sg m e]; try discriminate.
  - destruct (point_digits_decimals p 0 Hp) as (whole & frac & -> & Hlen).
    exists ((if sg then "-" else "") +:+ whole), frac.
    by rewrite str_app_assoc.
  - destruct (point_digits_decimals p (scaled_round p m e) Hp) as (whole & frac & -> & Hlen).
    exists ((if sg then "-" else "") +:+ whole), frac.
    by rewrite str_app_assoc.
Qed.

Lemma str_app_inv_head (a x y : string) : a +:+ x = a +:+ y → x = y.
Proof.
  induction a as [|ch a IH]; [done|].
  change (String ch (a +:+ x) = String ch (a +:+ y) → x = y).
  intros H. injection H as H. by apply IH.
Qed.

Lemma list_ascii_app (a b : string) :
  list_ascii_of_string (a +:+ b) = list_ascii_of_string a ++ list_ascii_of_string b.
Proof.
  induction a as [|ch a IH]; [done|].
  change (ch :: list_ascii_of_string (a +:+ b)
          = ch :: (list_ascii_of_string a ++ list_ascii_of_string b)).
  by rewrite IH.
Qed.

Lemma str_app_inv_tail (x y c : string) : x +:+ c = y +:+ c → x = y.
Proof.
  intros H. apply (f_equal list_ascii_of_string) in H.
  rewrite !list_ascii_app in H. apply app_inv_tail in H.
  apply (f_equal string_of_list_ascii) in H.
  by rewrite !string_of_list_ascii_of_string in H.
Qed.

Lemma str_of_int_digits (n : Z) :
  0 ≤ n → ∃ u, str_of_int n = NilEmpty.string_of_uint u ∧ Z.of_uint u = n.
Proof.
  intros Hn. destruct n as [|p|p]; [by exists (Decimal.D0 Decimal.Nil)| |lia].
  exists (Pos.to_uint p). split.
  - unfold str_of_int. cbn [Z.to_int NilZero.string_of_int].
    unfold NilZero.string_of_uint.
    pose proof (DecimalZ.of_to (Z.pos p)) as Hp. cbn [Z.to_int Z.of_int] in Hp.
    destruct (Pos.to_uint p); [cbn in Hp; discriminate Hp|done..].
  - exact (DecimalZ.of_to (Z.pos p)).
Qed.

Lemma uint_of_zeros (k : nat) (u : Decimal.uint) :
  NilEmpty.uint_of_string (zeros k +:+ NilEmpty.string_of_uint u)
  = Some (Nat.iter k Decimal.D0 u).
Proof.
  induction k as [|k IH]; [apply NilEmpty.usu|].
  change (uint_of_char "0"
            (NilEmpty.uint_of_string (zeros k +:+ NilEmpty.string_of_uint u))
          = Some (Decimal.D0 (Nat.iter k Decimal.D0 u))).
  by rewrite IH.
Qed.

Lemma of_uint_zeros (k : nat) (u : Decimal.uint) :
  Z.of_uint (Nat.iter k Decimal.D0 u) = Z.of_uint u.
Proof. induction k as [|k IH]; [done|]. cbn [Nat.iter]. exact IH. Qed.

Lemma uint_string_first (a : ascii) (s : string) (d : Decimal.uint) :
  NilEmpty.uint_of_string (String a s) = Some d →
  Ascii.eqb a "-" = false ∧ String.prefix "/" (String a s) = false.
Proof.
  cbn [NilEmpty.uint_of_string]. destruct (NilEmpty.uint_of_string s) as [d'|]; [|done].
  intros H. apply uint_of_char_spec in H.
  destruct H as [[-> _]|[[-> _]|[[-> _]|[[-> _]|[[-> _]|[[-> _]|[[-> _]|[[-> _]|[[-> _]|[-> _]]]]]]]]]];
    done.
Qed.

Lemma fmt_zero_pad_form (w : nat) (z : Z) :
  ∃ k u, fmt_zero_pad w z
         = (if (z <? 0)%Z then "-" else "") +:+ zeros k +:+ NilEmpty.string_of_uint u
       ∧ Z.of_uint u = Z.abs z.
Proof.
  destruct (str_of_int_digits (Z.abs z)) as (u & Hu & Hval); [lia|].
  unfold fmt_zero_pad. cbv zeta. rewrite Hu. by eexists _, u.
Qed.

Lemma read_decimal_fmt_zero_pad (w : nat) (z : Z) :
  read_decimal (fmt_zero_pad w z) = Some z.
Proof.
  destruct (fmt_zero_pad_form w z) as (k & u & -> & Hval).
  unfold read_decimal. destruct (Z.ltb_spec z 0) as [Hneg|Hpos].
  - change ("-" +:+ zeros k +:+ NilEmpty.string_of_uint u)
      with (String "-" (zeros k +:+ NilEmpty.string_of_uint u)).
    cbn [NilEmpty.int_of_string]. rewrite Ascii.eqb_refl, uint_of_zeros. cbn.
    rewrite of_uint_zeros, Hval. f_equal. lia.
  - change ("" +:+ zeros k +:+ NilEmpty.string_of_uint u)
      with (zeros k +:+ NilEmpty.string_of_uint u).
    pose proof (uint_of_zeros k u) as Hparse.
    destruct (zeros k +:+ NilEmpty.string_of_uint u) as [|a s] eqn:Hs.
    + injection Hparse as Hnil. cbn. f_equal.
      rewrite <- (of_uint_zeros k u), <- Hnil in Hval. cbn in Hval. lia.
    + cbn [NilEmpty.int_of_string].
      rewrite (proj1 (uint_string_first a s _ Hparse)), Hparse. cbn.
      rewrite of_uint_zeros, Hval. f_equal. lia.
Qed.

Lemma fmt_zero_pad_inj (w : nat) (z1 z2 : Z) :
  fmt_zero_pad w z1 = fmt_zero_pad w z2 → z1 = z2.
Proof.
  intros H. apply (f_equal read_decimal) in H.
  rewrite !read_decimal_fmt_zero_pad in H. by injection H.
Qed.

Lemma fmt_zero_pad_not_slash (w : nat) (z : Z) (t : string) :
  String.prefix "/" t = false → String.prefix "/" (fmt_zero_pad w z +:+ t) = false.
Proof.
  intros Ht. destruct (fmt_zero_pad_form w z) as (k & u & -> & _).
  destruct (z <? 0)%Z; [done|].
  change ("" +:+ zeros k +:+ NilEmpty.string_of_uint u)
    with (zeros k +:+ NilEmpty.string_of_uint u).
  pose proof (uint_of_zeros k u) as Hparse.
  destruct (zeros k +:+ NilEmpty.string_of_uint u) as [|a s] eqn:Hs; [exact Ht|].
  pose proof (proj2 (uint_string_first a s _ Hparse)) as Hfirst.
  change (String.prefix "/" (String a (s +:+ t)) = false).
  cbn [String.prefix] in *.
  destruct (ascii_dec "/" a); [destruct s; discriminate Hfirst|done].
Qed.

Lemma pkl_file_of_inj (id1 id2 : Z) : pkl_file_of id1 = pkl_file_of id2 → id1 = id2.
Proof.
  unfold pkl_file_of, path_join.
  rewrite !fmt_zero_pad_not_slash by done.
  change (bool_decide (baseline_result_path = "")
          || bool_decide (str_last baseline_result_path = Some "/"%char)) with false.
  cbv iota. intros H.
  apply str_app_inv_head, str_app_inv_head, str_app_inv_tail in H.
  by apply fmt_zero_pad_inj in H.
Qed.

Lemma substring_all (s : string) : String.substring 0 (String.length s) s = s.
Proof. induction s as [|ch s IH]; [done|]. cbn. by rewrite IH. Qed.

Lemma substring_split (s : string) :
  ∀ k p, (k + p = String.length s)%nat →
    String.substring 0 k s +:+ String.substring k p s = s.
Proof.
  induction s as [|ch s IH]; intros [|k] p H; cbn in H.
  - by replace p with 0%nat by lia.
  - lia.
  - cbn in H. subst p. change (String.substring 0 (String.length (String ch s)) (String ch s)
                               = String ch s). apply substring_all.
  - cbn [String.substring].
    change (String ch (String.substring 0 k s +:+ String.substring k p s) = String ch s).
    rewrite IH; [done|lia].
Qed.

Lemma zeros_snoc (n : nat) : zeros n +:+ "0" = String "0" (zeros n).
Proof.
  induction n as [|n IH]; [done|].
  change (String "0" (zeros n +:+ "0") = String "0" (String "0" (zeros n))).
  by rewrite IH.
Qed.

(** The digits around the point are those of the number. *)
Lemma point_digits_value (p : nat) (n : Z) :
  p ≠ 0%nat → 0 ≤ n →
  ∃ whole frac, point_digits p n = whole +:+ "." +:+ frac ∧
    String.length frac = p ∧ read_decimal (whole +:+ frac) = Some n.
Proof.
  intros Hp Hn. unfold point_digits. cbv zeta.
  rewrite bool_decide_eq_false_2 by exact Hp.
  set (s := zeros (S p - String.length (str_of_int n)) +:+ str_of_int n).
  assert (Hlen : (S p ≤ String.length s)%nat).
  { subst s. rewrite str_length_app, zeros_length. lia. }
  eexists _, _. split; [reflexivity|]. split.
  - apply substring_length. lia.
  - rewrite substring_split by lia.
    pose proof (read_decimal_fmt_zero_pad (S p) n) as Hread.
    unfold fmt_zero_pad in Hread. cbv zeta in Hread.
    rewrite (proj2 (Z.ltb_ge n 0) Hn), Z.abs_eq in Hread by exact Hn.
    cbn [String.length] in Hread. rewrite Nat.sub_0_r in Hread. exact Hread.
Qed.

Lemma round_half_even_nearest (n d : Z) :
  0 ≤ n → 0 < d →
  0 ≤ round_half_even n d ∧
  2 * Z.abs (n - round_half_even n d * d) ≤ d ∧
  (2 * Z.abs (n - round_half_even n d * d) = d → Z.even (round_half_even n d) = true).
Proof.
  intros Hn Hd. unfold round_half_even. cbv zeta.
  pose proof (Z.div_mod n d ltac:(lia)) as Hdm.
  pose proof (Z.mod_pos_bound n d Hd) as Hr.
  pose proof (Z.div_pos n d Hn Hd) as Hq.
  destruct (Z.ltb_spec (2 * (n mod d)) d); [split; [lia|split; [nia|nia]]|].
  destruct (Z.ltb_spec d (2 * (n mod d))); [split; [lia|split; [nia|nia]]|].
  destruct (Z.even (n / d)) eqn:Heven.
  - split; [lia|]. split; [nia|done].
  - split; [lia|]. split; [nia|]. intros _.
    replace (n / d + 1) with (Z.succ (n / d)) by lia.
    by rewrite Z.even_succ, <- Z.negb_even, Heven.
Qed.

(** [scaled_round p m e] is the integer nearest to [m * 2^e * 10^p],
    the even one of two equally near. *)
Lemma scaled_round_nearest (p : nat) (m : positive) (e : Z) :
  0 ≤ scaled_round p m e ∧
  (0 ≤ e → scaled_round p m e = Z.pos m * 10 ^ Z.of_nat p * 2 ^ e) ∧
  (e < 0 →
   2 * Z.abs (Z.pos m * 10 ^ Z.of_nat p - scaled_round p m e * 2 ^ (- e)) ≤ 2 ^ (- e) ∧
   (2 * Z.abs (Z.pos m * 10 ^ Z.of_nat p - scaled_round p m e * 2 ^ (- e)) = 2 ^ (- e) →
    Z.even (scaled_round p m e) = true)).
Proof.
  unfold scaled_round. cbv zeta.
  assert (Hnum : 0 ≤ Z.pos m * 10 ^ Z.of_nat p) by (apply Z.mul_nonneg_nonneg; lia).
  destruct (Z.leb_spec 0 e) as [He|He].
  - split; [apply Z.mul_nonneg_nonneg; lia|]. split; [done|lia].
  - assert (Hd : 0 < 2 ^ (- e)) by (apply Z.pow_pos_nonneg; lia).
    destruct (round_half_even_nearest _ _ Hnum Hd) as (Hpos & Hnear & Htie).
    split; [exact Hpos|]. split; [lia|by intros _].
Qed.

(** A finite float is printed with [p] digits after the point, and the
    digits printed are those of the integer nearest to the float times
    [10^p]. *)
Lemma format_fixed_value (p : nat) (x : float) (sg : bool) (m : positive) (e : Z) :
  p ≠ 0%nat → Prim2SF x = S754_finite sg m e →
  ∃ whole frac,
    format_fixed p x = (if sg then "-" else "") +:+ whole +:+ "." +:+ frac ∧
    String.length frac = p ∧
    read_decimal (whole +:+ frac) = Some (scaled_round p m e).
Proof.
  intros Hp Hx. unfold format_fixed. rewrite Hx.
  destruct (point_digits_value p (scaled_round p m e) Hp)
    as (whole & frac & -> & Hlen & Hread).
  { apply scaled_round_nearest. }
  by exists whole, frac.
Qed.

Lemma format_f_decimals (p : nat) (v : pynum) :
  p ≠ 0%nat → finite_num v = true →
  ∃ whole frac, format_f p v = whole +:+ "." +:+ frac ∧ String.length frac = p.
Proof.
  intros Hp Hfin. destruct v as [z|x].
  - unfold format_f.
    destruct (point_digits_decimals p (Z.abs z * 10 ^ Z.of_nat p) Hp)
      as (whole & frac & -> & Hlen).
    exists ((if (z <? 0)%Z then "-" else "") +:+ whole), frac.
    by rewrite str_app_assoc.
  - by apply format_fixed_decimals.
Qed.

(** The int [0] is printed as the float [0.0]: a zero, the point and
    [p] zeros. *)
Lemma format_f_zero (p : nat) :
  p ≠ 0%nat → format_f p (PyInt 0) = "0." +:+ zeros p.
Proof.
  intros Hp. unfold format_f, point_digits. cbv zeta.
  rewrite bool_decide_eq_false_2 by exact Hp.
  change (Z.abs 0 * 10 ^ Z.of_nat p) with 0.
  change (str_of_int 0) with "0". cbn [String.length].
  replace (S p - 1)%nat with p by lia.
  rewrite zeros_snoc. cbn [String.length]. rewrite zeros_length.
  replace (S p - p)%nat with 1%nat by lia.
  cbn [String.substring].
  pose proof (substring_all (zeros p)) as Hall. rewrite zeros_length in Hall.
  rewrite Hall. by destruct (zeros p).
Qed.

Section DriverClaims.
Context `{E : External}.

Implicit Types (en : env) (st : state) (b : Batch) (frames : list Batch).

Lemma processed_skip en frames1 frames2 b s g c :
  frame_out en b = Some (None, s, g, c) →
  processed en (frames1 ++ b :: frames2) = processed en (frames1 ++ frames2).
Proof.
  intros H. unfold processed. rewrite !omap_app. cbn. by rewrite H.
Qed.

Lemma accumulated_skip en thr x frames1 frames2 b s g c :
  frame_out en b = Some (None, s, g, c) →
  accumulated en thr x (frames1 ++ b :: frames2) = accumulated en thr x (frames1 ++ frames2).
Proof.
  intros H. unfold accumulated. by rewrite (processed_skip en frames1 frames2 b s g c H).
Qed.

(** C2: a frame whose pipeline returns [None] as predicted boxes is
    skipped: its step leaves [result_stat] as it was and adds no saving
    or drawing to the trace, and the run, which goes on with the frames
    after it, ends with the statistics and the APs of the run without
    that frame. *)
Theorem frame_without_prediction_is_skipped (opt : Opt) (loaded : Hypes)
    (before after : list Batch) b (s g c : option Tensor) :
  frame_out (run_env opt loaded) b = Some (None, s, g, c) →
  (∀ i st, ∃ st', frame_body (run_env opt loaded) i b st = Ok st' ∧
     result_stat st' = result_stat st ∧
     trace st' = trace st ++ [EvInference i (fusion_method opt)]) ∧
  (∃ st1 s1 st2 s2,
     main opt loaded (before ++ b :: after) = Finished st1 s1 ∧
     main opt loaded (before ++ after) = Finished st2 s2 ∧
     result_stat st1 = result_stat st2 ∧
     (ap_30 s1, ap_50 s1, ap_70 s1) = (ap_30 s2, ap_50 s2, ap_70 s2)).
Proof.
  intros Hout. split.
  - intros i st. unfold frame_body. unfold frame_out in Hout. rewrite Hout.
    eexists. split; [reflexivity|]. by destruct c.
  - assert (Hin : str_in (fusion_method opt) supported_methods = true)
      by (eapply dispatch_some_supported; exact Hout).
    destruct (main_finishes opt loaded (before ++ b :: after) Hin)
      as (st1 & s1 & Hm1 & Hrs1 & _ & _ & _ & Hap1 & _).
    destruct (main_finishes opt loaded (before ++ after) Hin)
      as (st2 & s2 & Hm2 & Hrs2 & _ & _ & _ & Hap2 & _).
    exists st1, s1, st2, s2.
    assert (Hrs : result_stat st1 = result_stat st2).
    { rewrite Hrs1, Hrs2.
      by rewrite !(accumulated_skip _ _ _ before after b s g c Hout). }
    repeat split; [done..|].
    by rewrite Hap1, Hap2, Hrs.
Qed.

Lemma sampled_rates_with_comm en frames :
  fusion_method (env_opt en) = "intermediate_with_comm" →
  sampled_rates en frames =
    (λ b, (inference_intermediate_fusion_withcomm (to_device b)
             (env_model en) (env_dataset en)).2) <$> frames.
Proof.
  intros Hm. unfold sampled_rates, frame_out. rewrite Hm.
  induction frames as [|b frames IH]; [done|].
  cbn [omap list_omap fmap list_fmap]. rewrite dispatch_with_comm.
  destruct (inference_intermediate_fusion_withcomm _ _ _) as [[[p s] g] c].
  cbn. f_equal. exact IH.
Qed.

Lemma sampled_rates_without_comm en frames :
  fusion_method (env_opt en) ≠ "intermediate_with_comm" →
  sampled_rates en frames = [].
Proof.
  intros Hm. unfold sampled_rates, frame_out.
  induction frames as [|b frames IH]; [done|].
  cbn [omap list_omap].
  destruct (dispatch _ _ _ _) as [[[[p s] g] c]|] eqn:Hd; [|exact IH].
  by rewrite (dispatch_without_comm _ _ _ _ _ _ _ _ Hm Hd).
Qed.

(** C3: the rate the report shows is the arithmetic mean of all the
    samples of the run, one per frame under [intermediate_with_comm]
    and none under the other methods, and the int [0] when there is no
    sample; every sample weighs the same. *)
Theorem reported_comm_rate_is_mean (opt : Opt) (loaded : Hypes) frames :
  str_in (fusion_method opt) supported_methods = true →
  ∃ st s, main opt loaded frames = Finished st s ∧
    total_comm_rates st =
      (if String.eqb (fusion_method opt) "intermediate_with_comm"
       then (λ b, (inference_intermediate_fusion_withcomm (to_device b)
                     (env_model (run_env opt loaded))
                     (env_dataset (run_env opt loaded))).2) <$> frames
       else []) ∧
    comm_rates s = spec_mean (total_comm_rates st) ∧
    (total_comm_rates st = [] → comm_rates s = PyInt 0) ∧
    msg s = report_msg (epoch_id s) (ap_30 s) (ap_50 s) (ap_70 s) (comm_rates s)
              (comm_thre opt).
Proof.
  intros Hin.
  destruct (main_finishes opt loaded frames Hin)
    as (st & s & Hm & _ & Hcr & _ & _ & _ & Hmean & Hmsg).
  exists st, s. split; [exact Hm|]. split; [|split; [exact Hmean|split; [|exact Hmsg]]].
  - rewrite Hcr. destruct (String.eqb_spec (fusion_method opt) "intermediate_with_comm") as [Heq|Hne].
    + by apply sampled_rates_with_comm.
    + by apply sampled_rates_without_comm.
  - intros Hnil. by rewrite Hmean, Hnil.
Qed.

Lemma appends_frame_events en i b : appends (frame_events en i b) = [].
Proof.
  unfold frame_events, appends.
  destruct (frame_out en b) as [[[[p s] g] c]|]; [|done].
  destruct p as [pred|]; [|done].
  cbn [omap list_omap]. rewrite omap_app.
  by destruct (save_npy (env_opt en)),
    (negb (save_vis_n (env_opt en) =? 0) && (Z.of_nat i <? save_vis_n (env_opt en))).
Qed.

Lemma appends_loop_events en frames : ∀ i, appends (loop_events en i frames) = [].
Proof.
  induction frames as [|b frames IH]; intros i; [done|].
  cbn [loop_events]. unfold appends in *. rewrite omap_app.
  fold (appends (frame_events en i b)). by rewrite appends_frame_events, IH.
Qed.

Lemma report_msg_layout (epoch : string) (a30 a50 a70 : float) (rate : pynum)
    (thre : option float) :
  report_msg epoch a30 a50 a70 rate thre =
    spec_report_base epoch a30 a50 a70 rate +:+ spec_report_suffix thre +:+ newline.
Proof.
  unfold report_msg, spec_report_base, spec_report_suffix.
  destruct thre as [t|]; by rewrite !str_app_assoc.
Qed.

(** C4: a run that passes the startup check appends exactly one line to
    [result.txt], made of the fields [Epoch], [AP @0.3], [AP @0.5],
    [AP @0.7] (four decimals) and [comm_rate] (six decimals) in this
    order, followed by [ | comm_thre: ] and the threshold with four
    decimals exactly when [--comm_thre] was given.  A float that is
    neither [nan] nor infinite is printed with exactly as many digits
    after the point as the field asks for, and so is the rate, be it
    the float of a mean or the int [0] of a run without samples, which
    is printed as [0.000000].  The digits printed for a float are those
    of the integer nearest to the float times the power of ten, the
    even one of two equally near. *)
Theorem one_report_line_per_run (opt : Opt) (loaded : Hypes) frames :
  str_in (fusion_method opt) supported_methods = true →
  ∃ st s, main opt loaded frames = Finished st s ∧
    appends (trace st) = [(path_join (model_dir opt) "result.txt", msg s)] ∧
    msg s = spec_report_base (epoch_id s) (ap_30 s) (ap_50 s) (ap_70 s) (comm_rates s)
            +:+ spec_report_suffix (comm_thre opt) +:+ newline ∧
    (spec_report_suffix (comm_thre opt) = "" ↔ comm_thre opt = None) ∧
    (∀ t, comm_thre opt = Some t →
       spec_report_suffix (comm_thre opt) = " | comm_thre: " +:+ format_fixed 4 t) ∧
    (∀ p x, p ≠ 0%nat → finite_float x = true →
       ∃ whole frac, format_fixed p x = whole +:+ "." +:+ frac ∧ String.length frac = p) ∧
    (∀ p v, p ≠ 0%nat → finite_num v = true →
       ∃ whole frac, format_f p v = whole +:+ "." +:+ frac ∧ String.length frac = p) ∧
    (∀ p, p ≠ 0%nat → format_f p (PyInt 0) = "0." +:+ zeros p) ∧
    (total_comm_rates st = [] →
       comm_rates s = PyInt 0 ∧
       msg s = "Epoch: " +:+ epoch_id s +:+ " | AP @0.3: " +:+ format_fixed 4 (ap_30 s)
               +:+ " | AP @0.5: " +:+ format_fixed 4 (ap_50 s)
               +:+ " | AP @0.7: " +:+ format_fixed 4 (ap_70 s)
               +:+ " | comm_rate: 0.000000" +:+ spec_report_suffix (comm_thre opt)
               +:+ newline) ∧
    (∀ p x sg m e, p ≠ 0%nat → Prim2SF x = S754_finite sg m e →
       ∃ whole frac,
         format_fixed p x = (if sg then "-" else "") +:+ whole +:+ "." +:+ frac ∧
         String.length frac = p ∧
         read_decimal (whole +:+ frac) = Some (scaled_round p m e) ∧
         (0 ≤ e → scaled_round p m e = Z.pos m * 10 ^ Z.of_nat p * 2 ^ e) ∧
         (e < 0 →
          2 * Z.abs (Z.pos m * 10 ^ Z.of_nat p - scaled_round p m e * 2 ^ (- e))
          ≤ 2 ^ (- e) ∧
          (2 * Z.abs (Z.pos m * 10 ^ Z.of_nat p - scaled_round p m e * 2 ^ (- e))
           = 2 ^ (- e) → Z.even (scaled_round p m e) = true))).
Proof.
  intros Hin.
  destruct (main_finishes opt loaded frames Hin)
    as (st & s & Hm & _ & _ & Htr & _ & _ & Hmean & Hmsg).
  exists st, s. split; [exact Hm|].
  split; [|split; [|split; [|split; [|split; [|split; [|split; [|split]]]]]]].
  - rewrite Htr. unfold appends. rewrite !omap_app.
    fold (appends (loop_events (run_env opt loaded) 0 frames)).
    by rewrite appends_loop_events.
  - rewrite Hmsg. apply report_msg_layout.
  - destruct (comm_thre opt) as [t|]; cbn; split; intros H; done.
  - intros t ->. done.
  - apply format_fixed_decimals.
  - apply format_f_decimals.
  - apply format_f_zero.
  - intros Hnil.
    assert (Hzero : comm_rates s = PyInt 0) by (by rewrite Hmean, Hnil).
    split; [exact Hzero|].
    rewrite Hmsg, report_msg_layout, Hzero. unfold spec_report_base.
    rewrite !str_app_assoc. reflexivity.
  - intros p x sg m e Hp Hx.
    destruct (format_fixed_value p x sg m e Hp Hx) as (whole & frac & Hfmt & Hlen & Hread).
    exists whole, frac.
    destruct (scaled_round_nearest p m e) as (_ & Hexact & Hnear).
    split; [exact Hfmt|]. split; [exact Hlen|]. split; [exact Hread|].
    split; [exact Hexact|exact Hnear].
Qed.

(** C5, as the code has it: the accumulator starts with exactly the
    keys 0.3, 0.5 and 0.7, each with empty lists and a zero count; the
    step of a frame with a predicted box set records once to each of the
    three entries, unless the test-inference switch is on, in which case
    it records to none; the run ends with one record per such frame on
    each entry (or with the fresh accumulator, under the switch), and
    the APs are reduced from that final accumulator. *)
Theorem accumulator_records_once_per_frame (opt : Opt) (loaded : Hypes) frames :
  str_in (fusion_method opt) supported_methods = true →
  (dom (init_result_stat (E := E)) = {[thr_03; thr_05; thr_07]} ∧
   ∀ thr, thr ∈ [thr_03; thr_05; thr_07] →
          init_result_stat (E := E) !! thr = Some (mk_threshold_stat [] [] 0)) ∧
  (∀ i b st pred sc g c x y z,
     frame_out (run_env opt loaded) b = Some (Some pred, sc, g, c) →
     result_stat st = stat3 x y z →
     ∃ st', frame_body (run_env opt loaded) i b st = Ok st' ∧
       result_stat st' =
         if str_contains "test.json" (test_dir loaded) then stat3 x y z
         else stat3 (stat_record (frame_tp_fp pred sc g thr_03) x)
                (stat_record (frame_tp_fp pred sc g thr_05) y)
                (stat_record (frame_tp_fp pred sc g thr_07) z)) ∧
  (∃ st s, main opt loaded frames = Finished st s ∧
     result_stat st =
       (if str_contains "test.json" (test_dir loaded) then init_result_stat
        else stat3
               (record_frames thr_03 empty_stat (processed (run_env opt loaded) frames))
               (record_frames thr_05 empty_stat (processed (run_env opt loaded) frames))
               (record_frames thr_07 empty_stat (processed (run_env opt loaded) frames))) ∧
     (ap_30 s, ap_50 s, ap_70 s) = eval_final_results (result_stat st) (model_dir opt)).
Proof.
  intros Hin. split; [|split].
  - split; [apply stat3_dom|].
    intros thr Hthr. rewrite init_result_stat_stat3.
    repeat (apply elem_of_cons in Hthr as [->|Hthr]);
      [apply stat3_lookup_03|apply stat3_lookup_05|apply stat3_lookup_07|].
    by apply elem_of_nil in Hthr.
  - intros i b st pred sc g c x y z Hout Hst.
    destruct (frame_body_step _ i b st x y z _ Hout Hst) as (st' & Hbody & Hrs & _).
    exists st'. split; [exact Hbody|]. rewrite Hrs. unfold accumulated.
    rewrite (processed_one_some _ b pred sc g c Hout).
    change (test_inference (run_env opt loaded))
      with (str_contains "test.json" (test_dir loaded)).
    by destruct (str_contains "test.json" (test_dir loaded)).
  - destruct (main_finishes opt loaded frames Hin)
      as (st & s & Hm & Hrs & _ & _ & _ & Hap & _).
    exists st, s. split; [exact Hm|]. split; [|by rewrite Hap].
    rewrite Hrs. unfold accumulated.
    change (test_inference (run_env opt loaded))
      with (str_contains "test.json" (test_dir loaded)).
    by destruct (str_contains "test.json" (test_dir loaded)).
Qed.

Lemma frame_body_not_rejected en i b st st' :
  str_in (fusion_method (env_opt en)) supported_methods = true →
  frame_body en i b st ≠ Raise NotImplementedError st'.
Proof.
  intros Hin.
  destruct (dispatch_supported (fusion_method (env_opt en)) (to_device b)
              (env_model en) (env_dataset en) Hin) as [[[[p s] g] c] Hd].
  unfold frame_body. rewrite Hd.
  destruct p as [pred|]; [|done].
  unfold rbind, caluclate_tp_fp.
  repeat case_match; congruence.
Qed.

(** C6: a fusion method outside the five supported names stops the run
    at the assertion, before anything else happens: nothing is printed,
    no frame is run, no file is touched.  A supported name passes, the
    run finishes, and no frame's step raises the loop's own
    NotImplementedError. *)
Theorem unsupported_method_rejected_at_startup (opt : Opt) (loaded : Hypes) frames :
  (str_in (fusion_method opt) supported_methods = false →
     main opt loaded frames = Raised AssertionError (mk_state ∅ [] [])) ∧
  (str_in (fusion_method opt) supported_methods = true →
     (∃ st s, main opt loaded frames = Finished st s) ∧
     ∀ i b st st', frame_body (run_env opt loaded) i b st ≠ Raise NotImplementedError st').
Proof.
  split.
  - intros Hout. unfold main. by rewrite Hout.
  - intros Hin. split.
    + destruct (main_finishes opt loaded frames Hin) as (st & s & Hm & _).
      by exists st, s.
    + intros i b st st'. by apply frame_body_not_rejected.
Qed.

Lemma processed_alike en frames1 frames2 :
  Forall2 (λ b1 b2, frame_out en b1 = frame_out en b2) frames1 frames2 →
  processed en frames1 = processed en frames2.
Proof.
  induction 1 as [|b1 b2 l1 l2 Hb _ IH]; [done|].
  unfold processed in *. cbn [omap list_omap]. by rewrite Hb, IH.
Qed.

Lemma sampled_rates_alike en frames1 frames2 :
  Forall2 (λ b1 b2, frame_out en b1 = frame_out en b2) frames1 frames2 →
  sampled_rates en frames1 = sampled_rates en frames2.
Proof.
  induction 1 as [|b1 b2 l1 l2 Hb _ IH]; [done|].
  unfold sampled_rates in *. cbn [omap list_omap]. by rewrite Hb, IH.
Qed.

Lemma loop_events_alike en frames1 frames2 :
  Forall2 (λ b1 b2, frame_out en b1 = frame_out en b2
                    ∧ origin_lidar (to_device b1) = origin_lidar (to_device b2))
    frames1 frames2 →
  ∀ i, erase_names <$> loop_events en i frames1 = erase_names <$> loop_events en i frames2.
Proof.
  induction 1 as [|b1 b2 l1 l2 [Hb Hl] _ IH]; intros i; [done|].
  cbn [loop_events]. rewrite !fmap_app, IH. f_equal.
  unfold frame_events. rewrite Hb, Hl.
  destruct (frame_out en b2) as [[[[p s] g] c]|]; [|done].
  destruct p as [pred|]; [|done].
  by destruct (save_npy (env_opt en)),
    (negb (save_vis_n (env_opt en) =? 0) && (Z.of_nat i <? save_vis_n (env_opt en))).
Qed.

(** C7: two runs whose frames differ in their identifiers only (the
    pipeline returns the same for corresponding frames, and the point
    clouds are the same) end with the same statistics, the same APs,
    the same mean rate and the same report line; their traces differ at
    most in the identifier handed to the prediction sink and in the
    paths of the images. *)
Theorem frame_id_only_names_artifacts (opt : Opt) (loaded : Hypes) frames1 frames2 :
  Forall2 (λ b1 b2, frame_out (run_env opt loaded) b1 = frame_out (run_env opt loaded) b2
                    ∧ origin_lidar (to_device b1) = origin_lidar (to_device b2))
    frames1 frames2 →
  result_stat (final_state (main opt loaded frames1))
    = result_stat (final_state (main opt loaded frames2)) ∧
  total_comm_rates (final_state (main opt loaded frames1))
    = total_comm_rates (final_state (main opt loaded frames2)) ∧
  final_summary (main opt loaded frames1) = final_summary (main opt loaded frames2) ∧
  raised (main opt loaded frames1) = raised (main opt loaded frames2) ∧
  erase_names <$> trace (final_state (main opt loaded frames1))
    = erase_names <$> trace (final_state (main opt loaded frames2)).
Proof.
  intros Halike.
  destruct (str_in (fusion_method opt) supported_methods) eqn:Hin.
  - assert (Hout : Forall2 (λ b1 b2, frame_out (run_env opt loaded) b1
                                     = frame_out (run_env opt loaded) b2) frames1 frames2).
    { eapply Forall2_impl; [exact Halike|]. by intros ? ? [? _]. }
    destruct (main_finishes opt loaded frames1 Hin)
      as (st1 & s1 & -> & Hrs1 & Hcr1 & Htr1 & Hep1 & Hap1 & Hmean1 & Hmsg1).
    destruct (main_finishes opt loaded frames2 Hin)
      as (st2 & s2 & -> & Hrs2 & Hcr2 & Htr2 & Hep2 & Hap2 & Hmean2 & Hmsg2).
    cbn [final_state final_summary raised].
    assert (Hrs : result_stat st1 = result_stat st2).
    { rewrite Hrs1, Hrs2. unfold accumulated.
      by rewrite (processed_alike _ _ _ Hout). }
    assert (Hcr : total_comm_rates st1 = total_comm_rates st2).
    { rewrite Hcr1, Hcr2. by apply sampled_rates_alike. }
    assert (Hs : s1 = s2).
    { rewrite Hrs, <- Hap2 in Hap1. rewrite Hcr, <- Hmean2 in Hmean1.
      rewrite <- Hep2 in Hep1.
      destruct s1, s2. cbn in *. simplify_eq. done. }
    split; [exact Hrs|]. split; [exact Hcr|]. split; [by rewrite Hs|].
    split; [done|].
    rewrite Htr1, Htr2, !fmap_app, (loop_events_alike _ _ _ Halike), Hs. done.
  - unfold main. by rewrite Hin.
Qed.

(** C8: under [intermediate_with_comm] the rate of a frame is appended
    before the predicted boxes are looked at, so a frame without
    prediction still adds its sample, and only that: the run's samples
    hold it at its place, the reported mean is taken over them, and the
    statistics are those of the run without the frame. *)
Theorem comm_rate_sampled_before_none_check (opt : Opt) (loaded : Hypes)
    (before after : list Batch) b (s g : option Tensor) (c : Tensor) :
  fusion_method opt = "intermediate_with_comm" →
  inference_intermediate_fusion_withcomm (to_device b)
    (env_model (run_env opt loaded)) (env_dataset (run_env opt loaded)) = (None, s, g, c) →
  (∀ i st, ∃ st', frame_body (run_env opt loaded) i b st = Ok st' ∧
     total_comm_rates st' = total_comm_rates st ++ [c] ∧
     result_stat st' = result_stat st) ∧
  (∃ st sm, main opt loaded (before ++ b :: after) = Finished st sm ∧
     total_comm_rates st = sampled_rates (run_env opt loaded) before
                           ++ c :: sampled_rates (run_env opt loaded) after ∧
     comm_rates sm = spec_mean (total_comm_rates st) ∧
     result_stat st = result_stat (final_state (main opt loaded (before ++ after)))).
Proof.
  intros Hm Hpipe.
  assert (Hout : frame_out (run_env opt loaded) b = Some (None, s, g, Some c)).
  { unfold frame_out. cbn [run_env env_opt]. rewrite Hm, dispatch_with_comm.
    by rewrite Hpipe. }
  assert (Hin : str_in (fusion_method opt) supported_methods = true) by by rewrite Hm.
  split.
  - intros i st. unfold frame_body. unfold frame_out in Hout. rewrite Hout.
    eexists. split; [reflexivity|]. done.
  - destruct (main_finishes opt loaded (before ++ b :: after) Hin)
      as (st & sm & Hmain & Hrs & Hcr & _ & _ & _ & Hmean & _).
    destruct (main_finishes opt loaded (before ++ after) Hin)
      as (st2 & sm2 & Hmain2 & Hrs2 & _).
    exists st, sm. split; [exact Hmain|]. split; [|split; [exact Hmean|]].
    + rewrite Hcr, sampled_rates_app. f_equal.
      unfold sampled_rates. cbn [omap list_omap]. by rewrite Hout.
    + rewrite Hmain2. cbn [final_state]. rewrite Hrs, Hrs2.
      by rewrite !(accumulated_skip _ _ _ before after b s g (Some c) Hout).
Qed.

Lemma loop_events_switch (flag : bool) en frames :
  ∀ i, loop_events (with_test_inference flag en) i frames = loop_events en i frames.
Proof.
  induction frames as [|b frames IH]; intros i; [done|].
  cbn [loop_events]. by rewrite IH.
Qed.

(** C9: when the test directory's path contains [test.json], no frame
    records anything: the run ends with the fresh accumulator, the APs
    and the single report line are produced from it, and the samples
    and the trace of the loop are those of the same loop with the
    switch off, where saving and drawing happen as usual. *)
Theorem test_json_run_accumulates_nothing (opt : Opt) (loaded : Hypes) frames :
  str_contains "test.json" (test_dir loaded) = true →
  str_in (fusion_method opt) supported_methods = true →
  ∃ st s, main opt loaded frames = Finished st s ∧
    result_stat st = init_result_stat ∧
    (ap_30 s, ap_50 s, ap_70 s) = eval_final_results init_result_stat (model_dir opt) ∧
    appends (trace st) = [(path_join (model_dir opt) "result.txt", msg s)] ∧
    ∃ st_off,
      eval_loop (with_test_inference false (run_env opt loaded)) 0 frames
        (start_state (run_env opt loaded)) = Ok st_off ∧
      total_comm_rates st = total_comm_rates st_off ∧
      trace st = trace st_off
                 ++ [EvEvalFinalResults (model_dir opt);
                     EvAppend (path_join (model_dir opt) "result.txt") (msg s);
                     EvPrint (msg s)].
Proof.
  intros Htest Hin.
  destruct (main_finishes opt loaded frames Hin)
    as (st & s & Hm & Hrs & Hcr & Htr & _ & Hap & _).
  assert (Hinit : result_stat st = init_result_stat).
  { rewrite Hrs. unfold accumulated.
    change (test_inference (run_env opt loaded))
      with (str_contains "test.json" (test_dir loaded)).
    by rewrite Htest. }
  exists st, s. split; [exact Hm|]. split; [exact Hinit|].
  split; [by rewrite Hap, Hinit|]. split.
  { rewrite Htr. unfold appends. rewrite !omap_app.
    fold (appends (loop_events (run_env opt loaded) 0 frames)).
    by rewrite appends_loop_events. }
  destruct (eval_loop_spec (with_test_inference false (run_env opt loaded)) frames 0
              (start_state (run_env opt loaded)) empty_stat empty_stat empty_stat)
    as (st_off & Hloop & _ & Hcr_off & Htr_off).
  { by apply frames_dispatch. }
  { reflexivity. }
  exists st_off. split; [exact Hloop|]. split.
  - rewrite Hcr, Hcr_off. reflexivity.
  - by rewrite Htr, Htr_off, <- app_assoc, loop_events_switch.
Qed.

End DriverClaims.

(** * Further properties of [result2dict] *)

Lemma fancy_index_needs_eight (A : Type) (b b' : list A) :
  fancy_index b composite_perm = Some b' → (8 ≤ length b)%nat.
Proof.
  destruct b as [|c0 [|c1 [|c2 [|c3 [|c4 [|c5 [|c6 [|c7 rest]]]]]]]];
    intros H; try discriminate H.
  cbn. lia.
Qed.

Lemma fancy_index_elems (A : Type) (b b' : list A) (idx : list nat) :
  fancy_index b idx = Some b' → length b' = length idx ∧ Forall (λ y, y ∈ b) b'.
Proof.
  intros H. apply mapM_Some_1 in H. split.
  - symmetry. by eapply Forall2_length.
  - induction H as [|p y idx' b'' Hp _ IH]; constructor; [|exact IH].
    by eapply list_elem_of_lookup_2.
Qed.


Lemma result2dict_loop_scored_inv (s : list float) (bs : list box) :
  ∀ i items, result2dict_loop (Some s) i bs = Some items →
    Forall (λ b : box, (8 ≤ length b)%nat) bs ∧
    (bs = [] ∨ (i + length bs ≤ length s)%nat) ∧
    items.*2 = take (length bs) (drop i s) ∧
    length items = length bs.
Proof.
  induction bs as [|b bs IH]; intros i items Hrun.
  - injection Hrun as <-. split; [constructor|]. split; [by left|]. by split.
  - rewrite result2dict_loop_cons, result2dict_item_scored in Hrun.
    destruct (fancy_index b composite_perm) as [b'|] eqn:Hb; [|done].
    destruct (s !! i) as [sc|] eqn:Hsc; [|done].
    destruct (result2dict_loop (Some s) (S i) bs) as [xs|] eqn:Hxs; [|done].
    injection Hrun as <-.
    destruct (IH (S i) xs Hxs) as (Hall & Hlen & Hsnd & Hn).
    pose proof (lookup_lt_Some _ _ _ Hsc) as Hi.
    split; [|split; [|split]].
    + constructor; [by eapply fancy_index_needs_eight|exact Hall].
    + right. cbn [length]. destruct Hlen as [->|Hlen]; cbn; lia.
    + cbn [length]. rewrite (drop_S _ _ _ Hsc). cbn. by rewrite Hsnd.
    + cbn. by rewrite Hn.
Qed.

Lemma result2dict_some_loop (t : ndarray3) (score : option (list float)) :
  is_Some (result2dict t score) ↔ is_Some (result2dict_loop score 0 (rows t)).
Proof.
  unfold result2dict. destruct (shape t) as [[n c] k].
  destruct (result2dict_loop score 0 (rows t)) as [items|]; cbn.
  - split; intros _; [by eexists|]. case_bool_decide; by eexists.
  - split; intros [? H]; discriminate H.
Qed.

(** X1: with a score tensor, [result2dict] returns exactly when every
    box has at least eight corners and there are at least as many
    scores as boxes; otherwise an index is out of range. *)
Theorem result2dict_scored_succeeds_iff (t : ndarray3) (s : list float) :
  is_Some (result2dict t (Some s)) ↔
  Forall (λ b : box, (8 ≤ length b)%nat) (rows t) ∧ (length (rows t) ≤ length s)%nat.
Proof.
  rewrite result2dict_some_loop. split.
  - intros [items Hrun].
    destruct (result2dict_loop_scored_inv s (rows t) 0 items Hrun) as (Hall & Hlen & _).
    split; [exact Hall|]. destruct Hlen as [->|Hlen]; cbn in *; lia.
  - intros [Hall Hlen]. apply result2dict_loop_returns; [exact Hall|cbn; lia].
Qed.

Lemma reordered_boxes_wf (c k : nat) (bs xs : list box) :
  Forall (λ b : box, length b = c ∧ Forall (λ p : corner, length p = k) b) bs →
  Forall2 (λ b x, fancy_index b composite_perm = Some x) bs xs →
  Forall (λ b : box, length b = 8%nat ∧ Forall (λ p : corner, length p = k) b) xs.
Proof.
  intros Hboxes Hall. induction Hall as [|b x bs xs Hb _ IH]; [constructor|].
  inversion Hboxes as [|? ? [_ Hcorners] Hboxes']; subst.
  constructor; [|by apply IH].
  destruct (fancy_index_elems _ b x composite_perm Hb) as [Hl Hin].
  split; [exact Hl|].
  eapply Forall_impl; [exact Hin|]. cbn. intros p Hp.
  by eapply (proj1 (Forall_forall _ _) Hcorners).
Qed.

Lemma result2dict_scored_unfold (t : ndarray3) (s : list float) (out : output_dict) :
  result2dict t (Some s) = Some out →
  ∃ items, result2dict_loop (Some s) 0 (rows t) = Some items ∧
    rows (boxes_3d out) = items.*1 ∧
    scores_3d out = FloatArray (items.*2) ∧
    (shape (boxes_3d out)).1.2 = 8%nat ∧
    (shape (boxes_3d out)).1.1 = length items ∧
    (shape (boxes_3d out)).2 = (if bool_decide (0 < length items)%nat
                                 then (shape t).2 else 3%nat) ∧
    array1_len (labels_3d out) = length items.
Proof.
  unfold result2dict. destruct (shape t) as [[n c] k].
  destruct (result2dict_loop (Some s) 0 (rows t)) as [items|]; [|done].
  cbn [mbind option_bind]. intros H. exists items. split; [done|].
  case_bool_decide as Hlen; injection H as <-; cbn.
  - by rewrite length_replicate.
  - destruct items; [done|cbn in Hlen; lia].
Qed.

(** X2: what [result2dict] returns is consistent: the box array agrees
    with its shape, boxes, scores and labels are as many as the input
    boxes, and with a score tensor every box has eight corners. *)
Theorem result2dict_output_consistent (t : ndarray3) (score : option (list float))
    (out : output_dict) :
  wf_ndarray3 t → result2dict t score = Some out →
  wf_ndarray3 (boxes_3d out) ∧
  length (rows (boxes_3d out)) = length (rows t) ∧
  array1_len (scores_3d out) = length (rows t) ∧
  array1_len (labels_3d out) = length (rows t) ∧
  (is_Some score → (shape (boxes_3d out)).1.2 = 8%nat).
Proof.
  intros Hwf Hout. destruct score as [s|].
  - destruct (result2dict_scored_unfold t s out Hout)
      as (items & Hrun & Hrows & Hsc & Hc & Hn & Hk & Hlab).
    destruct (result2dict_loop_scored_inv s (rows t) 0 items Hrun) as (_ & _ & _ & Hlen).
    pose proof (result2dict_loop_scored s (rows t) 0 items Hrun) as Hall.
    assert (Hwf' : wf_ndarray3 (boxes_3d out)).
    { unfold wf_ndarray3 in *.
      destruct (shape (boxes_3d out)) as [[n' c'] k'] eqn:Hsh. cbn in Hc, Hn, Hk.
      destruct (shape t) as [[n c] k]. destruct Hwf as [_ Hboxes]. cbn in Hk.
      rewrite Hrows, length_fmap. split; [done|].
      destruct items as [|x0 items0] eqn:Hitems; [constructor|].
      rewrite bool_decide_eq_true_2 in Hk by (cbn; lia). subst c' k'.
      rewrite <- Hitems in *.
      eapply (reordered_boxes_wf c k (rows t)); [exact Hboxes|].
      by apply Forall2_fmap_r. }
    split; [exact Hwf'|]. rewrite Hrows, Hsc, Hlab. cbn. rewrite !length_fmap.
    repeat split; done.
  - destruct t as [sh bs].
    pose proof (result2dict_unscored_rows sh bs) as (out' & Hout' & Hrows).
    rewrite Hout in Hout'. injection Hout' as <-.
    unfold result2dict in Hout. destruct sh as [[n c] k]. cbn [shape rows] in *.
    rewrite result2dict_loop_unscored in Hout. cbn [mbind option_bind] in Hout.
    unfold wf_ndarray3 in Hwf. cbn in Hwf. destruct Hwf as [Hn Hboxes].
    rewrite length_fmap in Hout.
    case_bool_decide as Hlen; injection Hout as <-; cbn.
    + rewrite fst_pair_with, snd_pair_with, !length_replicate.
      repeat split; try done; by intros [? H].
    + destruct bs; [|cbn in Hlen; lia].
      repeat split; try done; by intros [? H].
Qed.

Lemma result2dict_scored_labels (t : ndarray3) (s : list float) (out : output_dict) :
  result2dict t (Some s) = Some out →
  labels_3d out = match rows t with
                  | [] => FloatArray []
                  | _ :: _ => IntArray (replicate (length (rows t)) 2)
                  end.
Proof.
  unfold result2dict. destruct (shape t) as [[n c] k].
  destruct (result2dict_loop (Some s) 0 (rows t)) as [items|] eqn:Hrun; [|done].
  destruct (result2dict_loop_scored_inv s (rows t) 0 items Hrun) as (_ & _ & _ & Hlen).
  cbn [mbind option_bind]. intros H.
  case_bool_decide as Hpos; injection H as <-; cbn [labels_3d].
  - rewrite Hlen in *. by destruct (rows t); [cbn in Hpos; lia|].
  - rewrite Hlen in *. by destruct (rows t); [|cbn in Hpos; lia].
Qed.

(** X3: the scores returned are the first scores of the score tensor,
    in order, one per box; scores beyond the number of boxes are
    ignored.  Every box gets the label 2, whatever its score; without
    boxes the label array is the empty float array. *)
Theorem result2dict_scores_in_order (t : ndarray3) (s : list float) (out : output_dict) :
  result2dict t (Some s) = Some out →
  scores_3d out = FloatArray (take (length (rows t)) s) ∧
  labels_3d out = match rows t with
                  | [] => FloatArray []
                  | _ :: _ => IntArray (replicate (length (rows t)) 2)
                  end.
Proof.
  intros Hout. split; [|by apply (result2dict_scored_labels t s)].
  destruct (result2dict_scored_unfold t s out Hout) as (items & Hrun & _ & Hsc & _).
  destruct (result2dict_loop_scored_inv s (rows t) 0 items Hrun) as (_ & _ & Hsnd & _).
  by rewrite Hsc, Hsnd.
Qed.


(** X5: the two index lists can be applied in either order:
    [b3d[perm_label][perm_pred]] and [b3d[perm_pred][perm_label]] are
    the same box, or both out of range. *)
Theorem reorderings_commute (A : Type) (b : list A) :
  fancy_index b perm_label ≫= (λ b', fancy_index b' perm_pred)
  = fancy_index b perm_pred ≫= (λ b', fancy_index b' perm_label).
Proof.
  destruct b as [|c0 [|c1 [|c2 [|c3 [|c4 [|c5 [|c6 [|c7 rest]]]]]]]];
    reflexivity.
Qed.

(** * File names and [baseline_pkl2dict] *)

(** X6: [baseline_pkl2dict] raises a KeyError exactly when the file of
    the frame exists and its dictionary lacks one of the four keys it
    reads; for a frame without a file it returns. *)
Theorem baseline_pkl2dict_key_error_iff (files : gmap string (gmap string ndarray))
    (frame_id : Z) :
  (baseline_pkl2dict files frame_id = inl KeyError ↔
   ∃ results, files !! pkl_file_of frame_id = Some results ∧
     (results !! "boxes_3d" = None ∨ results !! "labels_3d" = None ∨
      results !! "scores_3d" = None ∨ results !! "label" = None)) ∧
  (files !! pkl_file_of frame_id = None →
   ∃ r, baseline_pkl2dict files frame_id = inr r).
Proof.
  unfold baseline_pkl2dict. cbv zeta.
  destruct (files !! pkl_file_of frame_id) as [results|].
  - destruct (results !! "boxes_3d") as [b|] eqn:Hb,
             (results !! "labels_3d") as [l|] eqn:Hl,
             (results !! "scores_3d") as [sc|] eqn:Hs,
             (results !! "label") as [g|] eqn:Hg.
    all: split; [|intros H; discriminate H].
    all: split;
      [intros H; try discriminate H; exists results; (split; [done|]); tauto
      |intros (r & Hr & Hnone); injection Hr as <-;
       try reflexivity; destruct Hnone as [H|[H|[H|H]]]; congruence].
  - split; [|intros _; by eexists].
    split; [intros H; discriminate H|]. intros (r & Hr & _). discriminate Hr.
Qed.

(** X7: when [baseline_pkl2dict] returns, the ground-truth dictionary
    has one score 1.0 and one label per box, and nothing is reordered:
    the arrays of an existing file are handed on as they were read, the
    labels of the ground truth then being all 2. *)
Theorem baseline_pkl2dict_returns (files : gmap string (gmap string ndarray))
    (frame_id : Z) (pred_dict gt_dict : array_dict) :
  baseline_pkl2dict files frame_id = inr (pred_dict, gt_dict) →
  d_scores_3d gt_dict
    = Arr1 (FloatArray (replicate (shape0 (d_boxes_3d gt_dict)) 1%float)) ∧
  shape0 (d_labels_3d gt_dict) = shape0 (d_boxes_3d gt_dict) ∧
  (∀ results, files !! pkl_file_of frame_id = Some results →
     results !! "boxes_3d" = Some (d_boxes_3d pred_dict) ∧
     results !! "scores_3d" = Some (d_scores_3d pred_dict) ∧
     results !! "labels_3d" = Some (d_labels_3d pred_dict) ∧
     results !! "label" = Some (d_boxes_3d gt_dict) ∧
     d_labels_3d gt_dict
       = Arr1 (IntArray (replicate (shape0 (d_boxes_3d gt_dict)) 2))).
Proof.
  unfold baseline_pkl2dict. cbv zeta.
  destruct (files !! pkl_file_of frame_id) as [results|].
  - destruct (results !! "boxes_3d") as [b|] eqn:Hb; [|done].
    destruct (results !! "labels_3d") as [l|] eqn:Hl; [|done].
    destruct (results !! "scores_3d") as [sc|] eqn:Hs; [|done].
    destruct (results !! "label") as [g|] eqn:Hg; [|done].
    intros H. injection H as <- <-. cbn.
    split; [done|]. split; [by rewrite length_replicate|].
    intros r Hr. injection Hr as <-. by rewrite Hb, Hl, Hs, Hg.
  - intros H. injection H as <- <-. cbn. split; [done|]. split; [done|].
    intros r Hr. discriminate Hr.
Qed.

(** X8: for a frame without a file [baseline_pkl2dict] returns, twice,
    the dictionary that [result2dict] returns for an empty box tensor:
    shapes (0, 8, 3), (0) and (0). *)
Theorem baseline_pkl2dict_missing_file (files : gmap string (gmap string ndarray))
    (frame_id : Z) (sh : nat * nat * nat) (score : option (list float)) :
  files !! pkl_file_of frame_id = None →
  (λ o, inr (as_array_dict o, as_array_dict o)) <$> result2dict (mk_ndarray3 sh []) score
  = Some (baseline_pkl2dict files frame_id).
Proof.
  intros Hnone. unfold baseline_pkl2dict. cbv zeta. rewrite Hnone.
  unfold result2dict. by destruct sh as [[n c] k].
Qed.

(** X9: the result for a frame depends on the file of that frame only:
    writing or removing the file of another frame changes nothing, as
    different identifiers have different file names. *)
Theorem baseline_pkl2dict_other_frames (files : gmap string (gmap string ndarray))
    (id1 id2 : Z) (results : gmap string ndarray) :
  id1 ≠ id2 →
  baseline_pkl2dict (<[pkl_file_of id2 := results]> files) id1
    = baseline_pkl2dict files id1 ∧
  baseline_pkl2dict (delete (pkl_file_of id2) files) id1 = baseline_pkl2dict files id1.
Proof.
  intros Hne.
  assert (Hpath : pkl_file_of id2 ≠ pkl_file_of id1).
  { intros H. apply pkl_file_of_inj in H. congruence. }
  unfold baseline_pkl2dict. cbv zeta.
  by rewrite lookup_insert_ne, lookup_delete_ne.
Qed.

(** * Further properties of the evaluation driver *)

Lemma path_join_prefix (a : string) :
  ∃ pre, ∀ b, String.prefix "/" b = false → path_join a b = pre +:+ b.
Proof.
  destruct (bool_decide (a = "") || bool_decide (str_last a = Some "/"%char)) eqn:Ha.
  - exists a. intros b Hb. unfold path_join. by rewrite Hb, Ha.
  - exists (a +:+ "/"). intros b Hb. unfold path_join.
    by rewrite Hb, Ha, str_app_assoc.
Qed.

Section DriverExtras.
Context `{E : External}.

Implicit Types (en : env) (st : state) (b : Batch) (frames : list Batch).

(** X10: two frames are drawn to the same pair of image files exactly
    when they have the same identifier. *)
Theorem image_paths_identify_frames en (id1 id2 : Z) (pred1 pred2 : Tensor)
    (g1 g2 : option Tensor) (l1 l2 : Tensor) :
  vis_paths (vis_events en id1 pred1 g1 l1) = vis_paths (vis_events en id2 pred2 g2 l2)
  ↔ id1 = id2.
Proof.
  split; [|by intros ->].
  unfold vis_events, vis_paths. cbn [omap list_omap]. cbv zeta.
  destruct (path_join_prefix (model_dir (env_opt en))) as [pre Hpre].
  rewrite !Hpre by done. intros H. injection H as H _.
  apply str_app_inv_head, str_app_inv_head, str_app_inv_tail in H.
  by apply fmt_zero_pad_inj in H.
Qed.

Lemma vis_paths_app (tr1 tr2 : list event) :
  vis_paths (tr1 ++ tr2) = vis_paths tr1 ++ vis_paths tr2.
Proof. apply omap_app. Qed.

Lemma vis_paths_frame_events en i b :
  (length (vis_paths (frame_events en i b)) ≤ 2)%nat ∧
  ((Z.to_nat (save_vis_n (env_opt en)) ≤ i)%nat → vis_paths (frame_events en i b) = []).
Proof.
  unfold frame_events.
  destruct (frame_out en b) as [[[[p s] g] c]|]; [|by split; [cbn; lia|]].
  destruct p as [pred|]; [|by split; [cbn; lia|]].
  cbn [vis_paths omap list_omap]. fold (vis_paths). rewrite omap_app.
  assert (Hsave : omap (λ ev : event, match ev with
                                      | EvVisualize _ _ _ _ p _ _ => Some p
                                      | _ => None
                                      end)
                    (if save_npy (env_opt en)
                     then save_events en (sample_idx (to_device b)) pred s g
                            (origin_lidar (to_device b))
                     else []) = []) by by destruct (save_npy (env_opt en)).
  rewrite Hsave. cbn [app].
  destruct (negb (save_vis_n (env_opt en) =? 0)
            && (Z.of_nat i <? save_vis_n (env_opt en))) eqn:Hvis.
  - split; [cbn; lia|]. intros Hi.
    apply andb_true_iff in Hvis as [_ Hlt]. apply Z.ltb_lt in Hlt. lia.
  - by split; [cbn; lia|].
Qed.

Lemma vis_paths_loop_take en frames :
  ∀ i,
    vis_paths (loop_events en i frames)
    = vis_paths (loop_events en i
                   (take (Z.to_nat (save_vis_n (env_opt en)) - i) frames)) ∧
    (length (vis_paths (loop_events en i frames))
     ≤ 2 * (Z.to_nat (save_vis_n (env_opt en)) - i))%nat.
Proof.
  induction frames as [|b frames IH]; intros i.
  - rewrite take_nil. split; [done|cbn; lia].
  - destruct (IH (S i)) as [Htake Hlen].
    destruct (vis_paths_frame_events en i b) as [Htwo Hlate].
    cbn [loop_events]. rewrite vis_paths_app, length_app.
    destruct (decide (Z.to_nat (save_vis_n (env_opt en)) ≤ i)%nat) as [Hge|Hlt].
    + rewrite (Hlate Hge).
      replace (Z.to_nat (save_vis_n (env_opt en)) - i)%nat with 0%nat in * by lia.
      replace (Z.to_nat (save_vis_n (env_opt en)) - S i)%nat with 0%nat in * by lia.
      rewrite take_0 in *. cbn in *.
      assert (vis_paths (loop_events en (S i) frames) = []) as ->
        by (destruct (vis_paths (loop_events en (S i) frames)); [done|cbn in Hlen; lia]).
      done.
    + replace (Z.to_nat (save_vis_n (env_opt en)) - i)%nat
        with (S (Z.to_nat (save_vis_n (env_opt en)) - S i)) by lia.
      cbn [take loop_events]. rewrite vis_paths_app, <- Htake. split; [done|lia].
Qed.

Lemma trace_of_unsupported (opt : Opt) (loaded : Hypes) frames :
  str_in (fusion_method opt) supported_methods = false →
  main opt loaded frames = Raised AssertionError (mk_state ∅ [] []).
Proof. intros H. unfold main. by rewrite H. Qed.

(** X11: only the frames at the first [save_vis_n] places of the data
    loader can be drawn: the images of a run are those of the run on
    these frames alone, at most two per place, and none at all when
    [save_vis_n] is zero or negative.  A frame without prediction uses
    up its place. *)
Theorem drawing_stops_after_save_vis_n (opt : Opt) (loaded : Hypes) frames :
  vis_paths (trace (final_state (main opt loaded frames)))
  = vis_paths (trace (final_state
                        (main opt loaded (take (Z.to_nat (save_vis_n opt)) frames)))) ∧
  (length (vis_paths (trace (final_state (main opt loaded frames))))
   ≤ 2 * Z.to_nat (save_vis_n opt))%nat.
Proof.
  destruct (str_in (fusion_method opt) supported_methods) eqn:Hin.
  - destruct (main_finishes opt loaded frames Hin)
      as (st1 & s1 & -> & _ & _ & Htr1 & _).
    destruct (main_finishes opt loaded (take (Z.to_nat (save_vis_n opt)) frames) Hin)
      as (st2 & s2 & -> & _ & _ & Htr2 & _).
    cbn [final_state]. rewrite Htr1, Htr2, !vis_paths_app.
    destruct (vis_paths_loop_take (run_env opt loaded) frames 0) as [Htake Hlen].
    cbn [run_env env_opt] in Htake, Hlen. rewrite Nat.sub_0_r in Htake, Hlen.
    rewrite <- Htake. cbn. rewrite !app_nil_r. split; [done|exact Hlen].
  - rewrite !trace_of_unsupported by exact Hin. cbn. split; [done|lia].
Qed.

Lemma saved_frames_frame_events en i b :
  saved_frames (frame_events en i b)
  = if save_npy (env_opt en) then processed_ids en [b] else [].
Proof.
  unfold frame_events, processed_ids. cbn [omap list_omap].
  destruct (frame_out en b) as [[[[p s] g] c]|]; [|by destruct (save_npy _)].
  destruct p as [pred|]; [|by destruct (save_npy _)].
  unfold saved_frames. cbn [omap list_omap]. rewrite omap_app.
  by destruct (save_npy (env_opt en)),
    (negb (save_vis_n (env_opt en) =? 0) && (Z.of_nat i <? save_vis_n (env_opt en))).
Qed.

Lemma saved_frames_loop_events en frames :
  ∀ i, saved_frames (loop_events en i frames)
       = if save_npy (env_opt en) then processed_ids en frames else [].
Proof.
  induction frames as [|b frames IH]; intros i; [by destruct (save_npy _)|].
  cbn [loop_events]. unfold saved_frames in *. rewrite omap_app.
  fold (saved_frames (frame_events en i b)).
  rewrite saved_frames_frame_events, IH.
  destruct (save_npy (env_opt en)); [|done].
  unfold processed_ids. by rewrite <- omap_app.
Qed.

Lemma processed_ids_unsupported en frames :
  str_in (fusion_method (env_opt en)) supported_methods = false →
  processed_ids en frames = [].
Proof.
  intros Hout. unfold processed_ids.
  induction frames as [|b frames IH]; [done|]. cbn [omap list_omap].
  destruct (frame_out en b) as [r|] eqn:Hr; [|exact IH].
  apply dispatch_some_supported in Hr. congruence.
Qed.

(** X12: with [--save_npy] the raw-prediction sink receives every frame
    that has predicted boxes, once, in the order of the data loader and
    under its own identifier, and no frame without prediction; without
    the flag it receives nothing. *)
Theorem saved_frames_are_processed_frames (opt : Opt) (loaded : Hypes) frames :
  saved_frames (trace (final_state (main opt loaded frames)))
  = if save_npy opt then processed_ids (run_env opt loaded) frames else [].
Proof.
  destruct (str_in (fusion_method opt) supported_methods) eqn:Hin.
  - destruct (main_finishes opt loaded frames Hin) as (st & s & -> & _ & _ & Htr & _).
    cbn [final_state]. rewrite Htr. unfold saved_frames. rewrite !omap_app.
    fold (saved_frames (loop_events (run_env opt loaded) 0 frames)).
    rewrite saved_frames_loop_events. cbn. by rewrite app_nil_r.
  - rewrite trace_of_unsupported by exact Hin. cbn.
    rewrite processed_ids_unsupported by exact Hin. by destruct (save_npy opt).
Qed.

(** X13: [--save_vis_n] and [--save_npy] decide about artifacts only:
    with other values for them the run ends with the same statistics,
    the same samples, the same APs, the same mean rate and the same
    report line, or stops at the same assertion. *)
Theorem artifact_options_keep_results (opt : Opt) (loaded : Hypes) frames
    (n : Z) (npy : bool) :
  result_stat (final_state (main (with_artifacts n npy opt) loaded frames))
    = result_stat (final_state (main opt loaded frames)) ∧
  total_comm_rates (final_state (main (with_artifacts n npy opt) loaded frames))
    = total_comm_rates (final_state (main opt loaded frames)) ∧
  final_summary (main (with_artifacts n npy opt) loaded frames)
    = final_summary (main opt loaded frames) ∧
  raised (main (with_artifacts n npy opt) loaded frames) = raised (main opt loaded frames).
Proof.
  destruct (str_in (fusion_method opt) supported_methods) eqn:Hin.
  - destruct (main_finishes (with_artifacts n npy opt) loaded frames Hin)
      as (st1 & s1 & -> & Hrs1 & Hcr1 & _ & Hep1 & Hap1 & Hmean1 & Hmsg1).
    destruct (main_finishes opt loaded frames Hin)
      as (st2 & s2 & -> & Hrs2 & Hcr2 & _ & Hep2 & Hap2 & Hmean2 & Hmsg2).
    cbn [final_state final_summary raised].
    assert (Hrs : result_stat st1 = result_stat st2) by (rewrite Hrs1, Hrs2; reflexivity).
    assert (Hcr : total_comm_rates st1 = total_comm_rates st2)
      by (rewrite Hcr1, Hcr2; reflexivity).
    split; [exact Hrs|]. split; [exact Hcr|]. split; [|done].
    change (model_dir (with_artifacts n npy opt)) with (model_dir opt) in Hap1.
    change (comm_thre (with_artifacts n npy opt)) with (comm_thre opt) in Hmsg1.
    change (run_epoch_id (with_artifacts n npy opt) loaded)
      with (run_epoch_id opt loaded) in Hep1.
    rewrite Hrs, <- Hap2 in Hap1. rewrite Hcr, <- Hmean2 in Hmean1.
    rewrite <- Hep2 in Hep1.
    destruct s1, s2. cbn in *. simplify_eq. done.
  - rewrite (trace_of_unsupported (with_artifacts n npy opt)) by exact Hin.
    by rewrite trace_of_unsupported by exact Hin.
Qed.

(** X14: a data loader without frames is no error: the run finishes
    with the accumulator as created, reduces the APs from it, and
    reports the rate of an empty sample list, [comm_rate: 0.000000],
    whatever the fusion method. *)
Theorem empty_loader_reports_fresh_accumulator (opt : Opt) (loaded : Hypes) :
  str_in (fusion_method opt) supported_methods = true →
  ∃ st s, main opt loaded [] = Finished st s ∧
    result_stat st = init_result_stat ∧
    total_comm_rates st = [] ∧
    comm_rates s = PyInt 0 ∧
    (ap_30 s, ap_50 s, ap_70 s) = eval_final_results init_result_stat (model_dir opt) ∧
    msg s = "Epoch: " +:+ epoch_id s +:+ " | AP @0.3: " +:+ format_fixed 4 (ap_30 s)
            +:+ " | AP @0.5: " +:+ format_fixed 4 (ap_50 s)
            +:+ " | AP @0.7: " +:+ format_fixed 4 (ap_70 s)
            +:+ " | comm_rate: 0.000000" +:+ spec_report_suffix (comm_thre opt)
            +:+ newline.
Proof.
  intros Hin.
  destruct (main_finishes opt loaded [] Hin)
    as (st & s & Hm & Hrs & Hcr & _ & _ & Hap & Hmean & Hmsg).
  assert (Hinit : result_stat st = init_result_stat).
  { rewrite Hrs. unfold accumulated. by destruct (test_inference _). }
  exists st, s. split; [exact Hm|]. split; [exact Hinit|]. split; [exact Hcr|].
  assert (Hzero : comm_rates s = PyInt 0) by (by rewrite Hmean, Hcr).
  split; [exact Hzero|]. split; [by rewrite Hap, Hinit|].
  rewrite Hmsg, report_msg_layout, Hzero. unfold spec_report_base.
  rewrite !str_app_assoc. reflexivity.
Qed.

Lemma inference_calls_loop en frames :
  Forall (λ b, is_Some (frame_out en b)) frames →
  ∀ i, inference_calls (loop_events en i frames)
       = (λ j, (j, fusion_method (env_opt en))) <$> seq i (length frames).
Proof.
  induction 1 as [|b frames [r Hr] _ IH]; intros i; [done|].
  cbn [loop_events length seq fmap list_fmap]. unfold inference_calls in *.
  rewrite omap_app, IH.
  unfold frame_events. rewrite Hr. destruct r as [[[p s] g] c].
  cbn [omap list_omap]. destruct p as [pred|]; [|done].
  rewrite omap_app.
  by destruct (save_npy (env_opt en)),
    (negb (save_vis_n (env_opt en) =? 0) && (Z.of_nat i <? save_vis_n (env_opt en))).
Qed.

Lemma inference_indices_calls (tr : list event) :
  inference_indices tr = (inference_calls tr).*1.
Proof.
  induction tr as [|ev tr IH]; [done|].
  unfold inference_indices, inference_calls in *. cbn [omap list_omap].
  destruct ev; cbn; by rewrite ?IH.
Qed.

(** X15: a run that passes the startup check runs, for every frame of
    the data loader, once, in order and under the loop index of the
    frame, the pipeline its method names: [inference_late_fusion] for
    [late], [inference_early_fusion] for [early],
    [inference_intermediate_fusion] for [intermediate],
    [inference_no_fusion] for [no] and
    [inference_intermediate_fusion_withcomm] for
    [intermediate_with_comm], each on the batch moved to the device,
    with the model and the dataset of the run.  The statistics and the
    samples of the run are taken from what these calls return, also for
    the frames the loop then skips. *)
Theorem every_frame_inferred_once (opt : Opt) (loaded : Hypes) frames :
  str_in (fusion_method opt) supported_methods = true →
  inference_calls (trace (final_state (main opt loaded frames)))
    = (λ i, (i, fusion_method opt)) <$> seq 0 (length frames) ∧
  inference_indices (trace (final_state (main opt loaded frames)))
    = seq 0 (length frames) ∧
  (∀ b,
     (fusion_method opt = "late" →
      frame_out (run_env opt loaded) b
      = Some (inference_late_fusion (to_device b) (env_model (run_env opt loaded))
                (env_dataset (run_env opt loaded)), None)) ∧
     (fusion_method opt = "early" →
      frame_out (run_env opt loaded) b
      = Some (inference_early_fusion (to_device b) (env_model (run_env opt loaded))
                (env_dataset (run_env opt loaded)), None)) ∧
     (fusion_method opt = "intermediate" →
      frame_out (run_env opt loaded) b
      = Some (inference_intermediate_fusion (to_device b) (env_model (run_env opt loaded))
                (env_dataset (run_env opt loaded)), None)) ∧
     (fusion_method opt = "no" →
      frame_out (run_env opt loaded) b
      = Some (inference_no_fusion (to_device b) (env_model (run_env opt loaded))
                (env_dataset (run_env opt loaded)), None)) ∧
     (fusion_method opt = "intermediate_with_comm" →
      frame_out (run_env opt loaded) b
      = Some ((inference_intermediate_fusion_withcomm (to_device b)
                 (env_model (run_env opt loaded)) (env_dataset (run_env opt loaded))).1,
              Some (inference_intermediate_fusion_withcomm (to_device b)
                      (env_model (run_env opt loaded))
                      (env_dataset (run_env opt loaded))).2))) ∧
  result_stat (final_state (main opt loaded frames))
    = stat3 (accumulated (run_env opt loaded) thr_03 empty_stat frames)
        (accumulated (run_env opt loaded) thr_05 empty_stat frames)
        (accumulated (run_env opt loaded) thr_07 empty_stat frames) ∧
  total_comm_rates (final_state (main opt loaded frames))
    = sampled_rates (run_env opt loaded) frames.
Proof.
  intros Hin.
  destruct (main_finishes opt loaded frames Hin) as (st & s & -> & Hrs & Hcr & Htr & _).
  cbn [final_state].
  assert (Hcalls : inference_calls (trace st)
                   = (λ i, (i, fusion_method opt)) <$> seq 0 (length frames)).
  { rewrite Htr. unfold inference_calls. rewrite !omap_app.
    fold (inference_calls (loop_events (run_env opt loaded) 0 frames)).
    rewrite inference_calls_loop by (by apply frames_dispatch).
    cbn. by rewrite app_nil_r. }
  split; [exact Hcalls|]. split.
  { rewrite inference_indices_calls, Hcalls, <- list_fmap_compose.
    apply list_fmap_id. }
  split; [|by split].
  intros b. unfold frame_out. cbn [run_env env_opt].
  repeat split; intros ->; try reflexivity.
  rewrite dispatch_with_comm.
  by destruct (inference_intermediate_fusion_withcomm _ _ _) as [[[p sc] g] c].
Qed.

End DriverExtras.

(** * Runs in the small world *)

#[local] Existing Instance Toy.world.

(** C1 as stated does not hold: a predicted box does not come out in
    the order of [perm_pred] alone (nor of [perm_label] alone), and a
    box without scores, the label side, is not reordered by
    [perm_label]. *)
Lemma result2dict_not_one_permutation_each :
  ∃ out_pred out_label,
    result2dict Toy.one_box (Some [0.5%float]) = Some out_pred ∧
    result2dict Toy.one_box None = Some out_label ∧
    Some <$> rows (boxes_3d out_pred) ≠ [spec_canonicalize Predicted Toy.box8] ∧
    Some <$> rows (boxes_3d out_pred) ≠ [spec_canonicalize LegacyLabel Toy.box8] ∧
    Some <$> rows (boxes_3d out_label) ≠ [spec_canonicalize LegacyLabel Toy.box8].
Proof.
  eexists _, _. split; [reflexivity|]. split; [reflexivity|].
  repeat split; intros H;
    apply (f_equal (fmap (fmap (fmap (fmap Prim2SF))))) in H;
    vm_compute in H; discriminate H.
Qed.

Lemma result2dict_reorders_by_composite_witness :
  wf_ndarray3 Toy.one_box ∧
  ∃ out, result2dict Toy.one_box (Some [0.5%float]) = Some out ∧
    Forall2 (λ b b', fancy_index b composite_perm = Some b')
      (rows Toy.one_box) (rows (boxes_3d out)).
Proof.
  assert (Hwf : wf_ndarray3 Toy.one_box) by (vm_compute; repeat constructor).
  split; [exact Hwf|].
  apply (result2dict_reorders_by_composite Toy.one_box [0.5%float] Hwf);
    cbn; lia.
Defined.

Lemma frame_without_prediction_is_skipped_witness :
  ∃ st1 s1 st2 s2,
    main (E := Toy.world) Toy.opt_comm Toy.hypes_val [Toy.frame_a; Toy.frame_none; Toy.frame_b]
      = Finished st1 s1 ∧
    main (E := Toy.world) Toy.opt_comm Toy.hypes_val [Toy.frame_a; Toy.frame_b] = Finished st2 s2 ∧
    result_stat st1 = result_stat st2 ∧
    (ap_30 s1, ap_50 s1, ap_70 s1) = (ap_30 s2, ap_50 s2, ap_70 s2).
Proof.
  exact (proj2 (frame_without_prediction_is_skipped (E := Toy.world) Toy.opt_comm Toy.hypes_val
                  [Toy.frame_a] [Toy.frame_b] Toy.frame_none
                  None (Some [3%float]) (Some [0.75%float]) eq_refl)).
Defined.

Lemma reported_comm_rate_is_mean_witness :
  (∃ st s,
     main (E := Toy.world) Toy.opt_comm Toy.hypes_val
       [Toy.frame_a; Toy.frame_none; Toy.frame_b] = Finished st s ∧
     total_comm_rates st = [[0.25%float]; [0.75%float]; [0.5%float]] ∧
     comm_rates s = spec_mean (total_comm_rates st)) ∧
  comm_rates <$> final_summary (main (E := Toy.world) Toy.opt_comm Toy.hypes_val
                                  [Toy.frame_a; Toy.frame_none; Toy.frame_b])
    = Some (PyFloat 0.5%float) ∧
  comm_rates <$> final_summary (main (E := Toy.world) Toy.opt_late Toy.hypes_val
                                  [Toy.frame_a; Toy.frame_none; Toy.frame_b])
    = Some (PyInt 0).
Proof.
  split.
  - destruct (reported_comm_rate_is_mean (E := Toy.world) Toy.opt_comm Toy.hypes_val
                [Toy.frame_a; Toy.frame_none; Toy.frame_b] eq_refl)
      as (st & s & Hm & Hcr & Hmean & _).
    exists st, s. split; [exact Hm|]. split; [exact Hcr|exact Hmean].
  - split; vm_compute; reflexivity.
Defined.

Lemma one_report_line_per_run_witness :
  (∃ st s,
     main (E := Toy.world) Toy.opt_comm Toy.hypes_val
       [Toy.frame_a; Toy.frame_none; Toy.frame_b] = Finished st s ∧
     appends (trace st) = [("/logs/run/result.txt", msg s)]) ∧
  msg <$> final_summary (main (E := Toy.world) Toy.opt_comm Toy.hypes_val
                           [Toy.frame_a; Toy.frame_none; Toy.frame_b])
    = Some ("Epoch: 30 | AP @0.3: 1.0000 | AP @0.5: 1.0000 | AP @0.7: 0.5000"
            +:+ " | comm_rate: 0.500000 | comm_thre: 0.2500" +:+ newline) ∧
  msg <$> final_summary (main (E := Toy.world) Toy.opt_late Toy.hypes_val
                           [Toy.frame_a; Toy.frame_none; Toy.frame_b])
    = Some ("Epoch: 12 | AP @0.3: 1.0000 | AP @0.5: 1.0000 | AP @0.7: 0.5000"
            +:+ " | comm_rate: 0.000000" +:+ newline) ∧
  format_f 6 (PyInt 0) = "0.000000" ∧
  format_fixed 4 0.40625%float = "0.4062" ∧
  format_fixed 4 0.59375%float = "0.5938" ∧
  format_fixed 4 0.5%float = "0.5000".
Proof.
  split.
  - destruct (one_report_line_per_run (E := Toy.world) Toy.opt_comm Toy.hypes_val
                [Toy.frame_a; Toy.frame_none; Toy.frame_b] eq_refl)
      as (st & s & Hm & Happ & _).
    exists st, s. split; [exact Hm|exact Happ].
  - repeat split; vm_compute; reflexivity.
Defined.

(** C5 as stated does not hold: in a run on a [test.json] directory the
    frame below has predicted boxes and is drawn, yet the entry of 0.5
    keeps the zero count, where one record would have counted its
    ground truth. *)
Lemma test_json_frame_processed_not_recorded :
  raised (main (E := Toy.world) Toy.opt_late Toy.hypes_test [Toy.frame_a]) = None ∧
  processed (run_env (E := Toy.world) Toy.opt_late Toy.hypes_test) [Toy.frame_a]
    = [([1%float; 2%float], Some [0.75%float; 0.25%float], Some [1%float])] ∧
  result_stat (final_state (main (E := Toy.world) Toy.opt_late Toy.hypes_test [Toy.frame_a]))
    = init_result_stat ∧
  gt <$> result_stat (final_state (main (E := Toy.world) Toy.opt_late Toy.hypes_test [Toy.frame_a])) !! thr_05
    = Some 0 ∧
  gt (stat_record
        (frame_tp_fp (External := Toy.world) [1%float; 2%float] (Some [0.75%float; 0.25%float]) (Some [1%float])
           thr_05)
        empty_stat) = 1.
Proof. repeat split; vm_compute; reflexivity. Qed.

Lemma accumulator_records_once_per_frame_witness :
  ∃ st s,
    main (E := Toy.world) Toy.opt_late Toy.hypes_val [Toy.frame_a; Toy.frame_none; Toy.frame_b]
      = Finished st s ∧
    result_stat st =
      stat3
        (record_frames thr_03 empty_stat
           (processed (run_env (E := Toy.world) Toy.opt_late Toy.hypes_val)
              [Toy.frame_a; Toy.frame_none; Toy.frame_b]))
        (record_frames thr_05 empty_stat
           (processed (run_env (E := Toy.world) Toy.opt_late Toy.hypes_val)
              [Toy.frame_a; Toy.frame_none; Toy.frame_b]))
        (record_frames thr_07 empty_stat
           (processed (run_env (E := Toy.world) Toy.opt_late Toy.hypes_val)
              [Toy.frame_a; Toy.frame_none; Toy.frame_b])) ∧
    (ap_30 s, ap_50 s, ap_70 s) = eval_final_results (result_stat st) "/logs/run".
Proof.
  exact (proj2 (proj2 (accumulator_records_once_per_frame (E := Toy.world) Toy.opt_late Toy.hypes_val
                         [Toy.frame_a; Toy.frame_none; Toy.frame_b] eq_refl))).
Defined.

(** The method [no_w_uncertainty], which the help text of
    [--fusion_method] lists, is not among the supported names. *)
Example unsupported_run_stops_at_assertion :
  main (E := Toy.world) Toy.opt_bad Toy.hypes_val [Toy.frame_a; Toy.frame_b]
    = Raised AssertionError (mk_state ∅ [] []).
Proof. reflexivity. Qed.

Lemma frame_id_only_names_artifacts_witness :
  result_stat (final_state (main (E := Toy.world) Toy.opt_comm Toy.hypes_val
                              [Toy.frame_a; Toy.frame_b]))
    = result_stat (final_state (main (E := Toy.world) Toy.opt_comm Toy.hypes_val
                                  [Toy.frame_a'; Toy.frame_b'])) ∧
  final_summary (main (E := Toy.world) Toy.opt_comm Toy.hypes_val [Toy.frame_a; Toy.frame_b])
    = final_summary (main (E := Toy.world) Toy.opt_comm Toy.hypes_val
                       [Toy.frame_a'; Toy.frame_b']) ∧
  vis_paths (trace (final_state (main (E := Toy.world) Toy.opt_comm Toy.hypes_val
                                   [Toy.frame_a; Toy.frame_b])))
    = ["/logs/run/vis_3d/3d_00007.png"; "/logs/run/vis_bev/bev_00007.png";
       "/logs/run/vis_3d/3d_00009.png"; "/logs/run/vis_bev/bev_00009.png"] ∧
  vis_paths (trace (final_state (main (E := Toy.world) Toy.opt_comm Toy.hypes_val
                                   [Toy.frame_a'; Toy.frame_b'])))
    = ["/logs/run/vis_3d/3d_01007.png"; "/logs/run/vis_bev/bev_01007.png";
       "/logs/run/vis_3d/3d_-0003.png"; "/logs/run/vis_bev/bev_-0003.png"] ∧
  saved_frames (trace (final_state (main (E := Toy.world) Toy.opt_comm Toy.hypes_val
                                      [Toy.frame_a'; Toy.frame_b'])))
    = [1007; -3].
Proof.
  destruct (frame_id_only_names_artifacts (E := Toy.world) Toy.opt_comm Toy.hypes_val
              [Toy.frame_a; Toy.frame_b] [Toy.frame_a'; Toy.frame_b'])
    as (Hrs & _ & Hs & _).
  { repeat constructor. }
  split; [exact Hrs|]. split; [exact Hs|].
  repeat split; vm_compute; reflexivity.
Defined.

Lemma comm_rate_sampled_before_none_check_witness :
  ∃ st sm,
    main (E := Toy.world) Toy.opt_comm Toy.hypes_val [Toy.frame_a; Toy.frame_none; Toy.frame_b]
      = Finished st sm ∧
    total_comm_rates st = [[0.25%float]; [0.75%float]; [0.5%float]] ∧
    comm_rates sm = spec_mean (total_comm_rates st) ∧
    result_stat st
      = result_stat (final_state (main (E := Toy.world) Toy.opt_comm Toy.hypes_val [Toy.frame_a; Toy.frame_b])).
Proof.
  exact (proj2 (comm_rate_sampled_before_none_check (E := Toy.world) Toy.opt_comm Toy.hypes_val
                  [Toy.frame_a] [Toy.frame_b] Toy.frame_none
                  None (Some [3%float]) [0.75%float] eq_refl eq_refl)).
Defined.

Lemma test_json_run_accumulates_nothing_witness :
  (∃ st s,
     main (E := Toy.world) Toy.opt_comm Toy.hypes_test
       [Toy.frame_a; Toy.frame_none; Toy.frame_b] = Finished st s ∧
     result_stat st = init_result_stat ∧
     (ap_30 s, ap_50 s, ap_70 s) = eval_final_results init_result_stat "/logs/run" ∧
     appends (trace st) = [("/logs/run/result.txt", msg s)]) ∧
  total_comm_rates (final_state (main (E := Toy.world) Toy.opt_comm Toy.hypes_test
                                   [Toy.frame_a; Toy.frame_none; Toy.frame_b]))
    = [[0.25%float]; [0.75%float]; [0.5%float]] ∧
  saved_frames (trace (final_state (main (E := Toy.world) Toy.opt_comm Toy.hypes_test
                                      [Toy.frame_a; Toy.frame_none; Toy.frame_b])))
    = [7; 9] ∧
  vis_paths (trace (final_state (main (E := Toy.world) Toy.opt_comm Toy.hypes_test
                                   [Toy.frame_a; Toy.frame_none; Toy.frame_b])))
    = ["/logs/run/vis_3d/3d_00007.png"; "/logs/run/vis_bev/bev_00007.png";
       "/logs/run/vis_3d/3d_00009.png"; "/logs/run/vis_bev/bev_00009.png"] ∧
  msg <$> final_summary (main (E := Toy.world) Toy.opt_comm Toy.hypes_test
                           [Toy.frame_a; Toy.frame_none; Toy.frame_b])
    = Some ("Epoch: 30 | AP @0.3: 0.0000 | AP @0.5: 0.0000 | AP @0.7: 0.0000"
            +:+ " | comm_rate: 0.500000 | comm_thre: 0.2500" +:+ newline).
Proof.
  split.
  - destruct (test_json_run_accumulates_nothing (E := Toy.world) Toy.opt_comm Toy.hypes_test
                [Toy.frame_a; Toy.frame_none; Toy.frame_b] eq_refl eq_refl)
      as (st & s & Hm & Hrs & Hap & Happ & _).
    exists st, s. split; [exact Hm|]. split; [exact Hrs|]. split; [exact Hap|exact Happ].
  - repeat split; vm_compute; reflexivity.
Defined.

(** ** More runs: [result2dict], [baseline_pkl2dict], artifacts *)

Lemma result2dict_scored_succeeds_iff_witness :
  is_Some (result2dict Toy.one_box (Some [0.5%float])) ∧
  result2dict ToyFiles.seven_corners (Some [0.5%float]) = None ∧
  result2dict Toy.one_box (Some []) = None ∧
  is_Some (result2dict ToyFiles.seven_corners None).
Proof.
  split.
  - apply (proj2 (result2dict_scored_succeeds_iff Toy.one_box [0.5%float])).
    split; [repeat constructor; cbn; lia|cbn; lia].
  - split; [reflexivity|]. split; [reflexivity|]. by eexists.
Defined.

Lemma result2dict_output_consistent_witness :
  ∃ out,
    result2dict ToyFiles.nine_corners (Some [0.5%float; 0.25%float; 0.75%float]) = Some out ∧
    wf_ndarray3 (boxes_3d out) ∧
    shape (boxes_3d out) = (2%nat, 8%nat, 1%nat) ∧
    array1_len (scores_3d out) = 2%nat.
Proof.
  assert (Hwf : wf_ndarray3 ToyFiles.nine_corners) by (vm_compute; repeat constructor).
  eexists. split; [reflexivity|].
  split; [|split; reflexivity].
  exact (proj1 (result2dict_output_consistent ToyFiles.nine_corners
                  (Some [0.5%float; 0.25%float; 0.75%float]) _ Hwf eq_refl)).
Defined.

Lemma result2dict_scores_in_order_witness :
  ∃ out,
    result2dict ToyFiles.nine_corners (Some [0.5%float; 0.25%float; 0.75%float]) = Some out ∧
    scores_3d out = FloatArray [0.5%float; 0.25%float] ∧
    labels_3d out = IntArray [2; 2].
Proof.
  eexists. split; [reflexivity|].
  exact (result2dict_scores_in_order ToyFiles.nine_corners
           [0.5%float; 0.25%float; 0.75%float] _ eq_refl).
Defined.


Lemma baseline_pkl2dict_key_error_iff_witness :
  baseline_pkl2dict ToyFiles.files 8 = inl KeyError ∧
  (∃ r, baseline_pkl2dict ToyFiles.files 7 = inr r) ∧
  (∃ r, baseline_pkl2dict ToyFiles.files 9 = inr r).
Proof.
  split.
  - apply (proj2 (proj1 (baseline_pkl2dict_key_error_iff ToyFiles.files 8))).
    exists ToyFiles.unlabelled. split; [vm_compute; reflexivity|].
    right. right. right. vm_compute. reflexivity.
  - split; [eexists; vm_compute; reflexivity|].
    apply (proj2 (baseline_pkl2dict_key_error_iff ToyFiles.files 9)).
    vm_compute. reflexivity.
Defined.

Lemma baseline_pkl2dict_returns_witness :
  baseline_pkl2dict ToyFiles.files 7
    = inr (mk_array_dict (Arr3 ToyFiles.two_boxes)
             (Arr1 (FloatArray [0.75%float; 0.5%float])) (Arr1 (IntArray [2; 2])),
           mk_array_dict (Arr3 ToyFiles.three_boxes)
             (Arr1 (FloatArray [1%float; 1%float; 1%float])) (Arr1 (IntArray [2; 2; 2]))) ∧
  shape0 (Arr1 (IntArray [2; 2; 2])) = shape0 (Arr3 ToyFiles.three_boxes).
Proof.
  assert (Hrun : baseline_pkl2dict ToyFiles.files 7
    = inr (mk_array_dict (Arr3 ToyFiles.two_boxes)
             (Arr1 (FloatArray [0.75%float; 0.5%float])) (Arr1 (IntArray [2; 2])),
           mk_array_dict (Arr3 ToyFiles.three_boxes)
             (Arr1 (FloatArray [1%float; 1%float; 1%float])) (Arr1 (IntArray [2; 2; 2]))))
    by (vm_compute; reflexivity).
  split; [exact Hrun|].
  exact (proj1 (proj2 (baseline_pkl2dict_returns ToyFiles.files 7 _ _ Hrun))).
Defined.

Lemma baseline_pkl2dict_missing_file_witness :
  (λ o, inr (as_array_dict o, as_array_dict o))
    <$> result2dict (mk_ndarray3 (0%nat, 8%nat, 3%nat) []) None
  = Some (baseline_pkl2dict ToyFiles.files 9).
Proof.
  apply (baseline_pkl2dict_missing_file ToyFiles.files 9).
  vm_compute. reflexivity.
Defined.

Lemma baseline_pkl2dict_other_frames_witness :
  baseline_pkl2dict (<[pkl_file_of 8 := ToyFiles.stored]> ToyFiles.files) 7
    = baseline_pkl2dict ToyFiles.files 7 ∧
  baseline_pkl2dict (delete (pkl_file_of 8) ToyFiles.files) 7
    = baseline_pkl2dict ToyFiles.files 7.
Proof.
  apply (baseline_pkl2dict_other_frames ToyFiles.files 7 8 ToyFiles.stored). lia.
Defined.

Lemma drawing_stops_after_save_vis_n_witness :
  vis_paths (trace (final_state (main (E := Toy.world) Toy.opt_late Toy.hypes_val
                                   [Toy.frame_none; Toy.frame_a; Toy.frame_b]))) = [] ∧
  vis_paths (trace (final_state (main (E := Toy.world) Toy.opt_late Toy.hypes_val
                                   [Toy.frame_a; Toy.frame_none; Toy.frame_b])))
    = ["/logs/run/vis_3d/3d_00007.png"; "/logs/run/vis_bev/bev_00007.png"].
Proof.
  split.
  - rewrite (proj1 (drawing_stops_after_save_vis_n (E := Toy.world) Toy.opt_late
                      Toy.hypes_val [Toy.frame_none; Toy.frame_a; Toy.frame_b])).
    vm_compute. reflexivity.
  - vm_compute. reflexivity.
Defined.

Lemma saved_frames_are_processed_frames_witness :
  saved_frames (trace (final_state (main (E := Toy.world) Toy.opt_comm Toy.hypes_val
                                      [Toy.frame_a; Toy.frame_none; Toy.frame_b])))
    = [7; 9] ∧
  saved_frames (trace (final_state (main (E := Toy.world) Toy.opt_late Toy.hypes_val
                                      [Toy.frame_a; Toy.frame_none; Toy.frame_b])))
    = [].
Proof.
  split.
  - rewrite (saved_frames_are_processed_frames (E := Toy.world) Toy.opt_comm Toy.hypes_val).
    vm_compute. reflexivity.
  - vm_compute. reflexivity.
Defined.

Lemma empty_loader_reports_fresh_accumulator_witness :
  (∃ st s, main (E := Toy.world) Toy.opt_comm Toy.hypes_val [] = Finished st s ∧
     result_stat st = init_result_stat ∧ comm_rates s = PyInt 0) ∧
  msg <$> final_summary (main (E := Toy.world) Toy.opt_comm Toy.hypes_val [])
    = Some ("Epoch: 30 | AP @0.3: 0.0000 | AP @0.5: 0.0000 | AP @0.7: 0.0000"
            +:+ " | comm_rate: 0.000000 | comm_thre: 0.2500" +:+ newline).
Proof.
  split.
  - destruct (empty_loader_reports_fresh_accumulator (E := Toy.world) Toy.opt_comm
                Toy.hypes_val eq_refl) as (st & s & Hm & Hrs & _ & Hzero & _).
    exists st, s. split; [exact Hm|]. split; [exact Hrs|exact Hzero].
  - vm_compute. reflexivity.
Defined.

Lemma every_frame_inferred_once_witness :
  inference_calls
    (trace (final_state (main (E := Toy.world) Toy.opt_comm Toy.hypes_val
                           [Toy.frame_a; Toy.frame_none; Toy.frame_b])))
  = [(0%nat, "intermediate_with_comm"); (1%nat, "intermediate_with_comm");
     (2%nat, "intermediate_with_comm")].
Proof.
  exact (proj1 (every_frame_inferred_once (E := Toy.world) Toy.opt_comm Toy.hypes_val
                  [Toy.frame_a; Toy.frame_none; Toy.frame_b] eq_refl)).
Defined.
